(** * Interactive voice response: the call session state machine

    A shallow embedding of [app.py]: the location resolver
    ([map_pincode_to_city]), the two gateways ([get_weather_for_place],
    [get_tomato_price_demo]), the message composer ([build_message]),
    the synthesis dispatcher and the three webhook handlers
    ([ivr_entry], [handle_language], [collect_digit]) over the
    process-wide [sessions] dictionary.

    Conventions.
    - A Python [str] is a Rocq [string] holding its UTF-8 bytes, so the
      literals below are the literals of the source.  Equality,
      concatenation and the substring test [in] agree on both sides;
      where the code asks about characters ([str.isdigit], [int]) the
      bytes are decoded to code points.
    - Python integers are [Z].
    - A function that can raise returns a [result]; a handler returns
      the store as it is left behind together with its [result], since
      a raise does not undo the writes made before it.
    - Everything outside the process (the weather service, the speech
      backends, the clock, the request headers) is read from a [world]
      record, one per handled request. *)

From Stdlib Require Import ZArith Ascii String List Bool Lia.
From stdpp Require Import base option strings list gmap fin_maps pretty.

Open Scope Z_scope.
Open Scope string_scope.

(** ** Outcomes *)

Inductive exn : Type :=
| ValueError
| Exception.

Inductive result (A : Type) : Type :=
| Ok (a : A)
| Raise (e : exn).
Arguments Ok {A} a.
Arguments Raise {A} e.

(** ** Text *)

Module Str.

(** [needle in hay] *)
Fixpoint contains (needle hay : string) : bool :=
  String.prefix needle hay
  || match hay with
     | EmptyString => false
     | String _ hay' => contains needle hay'
     end.

(** the truth value of a string: it is not empty *)
Definition truthy (s : string) : bool :=
  match s with
  | EmptyString => false
  | _ => true
  end.

(** the truth value of [os.environ.get(...)]: set and not empty *)
Definition truthy_opt (s : option string) : bool :=
  match s with
  | None => false
  | Some s => truthy s
  end.

(** ["".join(parts)] *)
Definition join (parts : list string) : string :=
  fold_right String.append "" parts.

(** *** Characters

    The characters of a text are the code points its UTF-8 sequences
    encode.  A byte that belongs to no sequence (the encoding of a
    [str] holds none) is kept as the lone surrogate U+DC00 + byte,
    which is no digit and no letter. *)

Definition continuation (b : N) : bool := ((128 <=? b) && (b <? 192))%N.

Definition stray (b : N) : N := (56320 + b)%N.

(** A decoded sequence counts when it is the shortest one for its code
    point and the code point is no surrogate. *)
Definition scalar (least cp : N) : bool :=
  ((least <=? cp) && (cp <=? 1114111) && negb ((55296 <=? cp) && (cp <=? 57343)))%N.

Fixpoint chars (s : string) : list N :=
  match s with
  | EmptyString => []
  | String c0 rest =>
      let b0 := N_of_ascii c0 in
      if (b0 <? 128)%N then b0 :: chars rest
      else
        match rest with
        | EmptyString => [stray b0]
        | String c1 rest1 =>
            let b1 := N_of_ascii c1 in
            if negb (continuation b1) then stray b0 :: chars rest
            else if ((194 <=? b0) && (b0 <? 224))%N then
              ((b0 - 192) * 64 + (b1 - 128))%N :: chars rest1
            else
              match rest1 with
              | EmptyString => stray b0 :: chars rest
              | String c2 rest2 =>
                  let b2 := N_of_ascii c2 in
                  let cp3 := (((b0 - 224) * 64 + (b1 - 128)) * 64 + (b2 - 128))%N in
                  if negb (continuation b2) then stray b0 :: chars rest
                  else if ((224 <=? b0) && (b0 <? 240))%N then
                    if scalar 2048 cp3 then cp3 :: chars rest2
                    else stray b0 :: chars rest
                  else
                    match rest2 with
                    | EmptyString => stray b0 :: chars rest
                    | String c3 rest3 =>
                        let b3 := N_of_ascii c3 in
                        let cp4 :=
                          ((((b0 - 240) * 64 + (b1 - 128)) * 64 + (b2 - 128)) * 64
                           + (b3 - 128))%N in
                        if ((240 <=? b0) && (b0 <? 248))%N && continuation b3
                           && scalar 65536 cp4
                        then cp4 :: chars rest3
                        else stray b0 :: chars rest
                    end
              end
        end
  end.

(** *** Digits (Unicode 14.0, as in CPython 3.11)

    The decimal digits come in runs of ten, the digits 0 to 9 of one
    script in order; [decimal_zeros] lists the zero of each run.  The
    other characters of numeric type Digit (superscripts, circled
    digits and the like) are the [other_digits], by ranges. *)

Definition decimal_zeros : list N :=
  [ 48; 1632; 1776; 1984; 2406; 2534; 2662; 2790;
    2918; 3046; 3174; 3302; 3430; 3558; 3664; 3792;
    3872; 4160; 4240; 6112; 6160; 6470; 6608; 6784;
    6800; 6992; 7088; 7232; 7248; 42528; 43216; 43264;
    43472; 43504; 43600; 44016; 65296; 66720; 68912; 69734;
    69872; 69942; 70096; 70384; 70736; 70864; 71248; 71360;
    71472; 71904; 72016; 72784; 73040; 73120; 92768; 92864;
    93008; 120782; 120792; 120802; 120812; 120822; 123200; 123632;
    125264; 130032 ]%N.

Definition other_digits : list (N * N) :=
  [ (178, 179); (185, 185); (4969, 4977); (6618, 6618); (8304, 8304);
    (8308, 8313); (8320, 8329); (9312, 9320); (9332, 9340); (9352, 9360);
    (9450, 9450); (9461, 9469); (9471, 9471); (10102, 10110); (10112, 10120);
    (10122, 10130); (68160, 68163); (69216, 69224); (69714, 69722); (127232, 127242) ]%N.

(** [unicodedata.decimal(c)], [None] for a character that has none *)
Definition decimal_value (c : N) : option Z :=
  match find (fun z => (z <=? c) && (c <? z + 10))%N decimal_zeros with
  | Some z => Some (Z.of_N (c - z))
  | None => None
  end.

(** [c.isdigit()] for one character *)
Definition is_digit_char (c : N) : bool :=
  match decimal_value c with
  | Some _ => true
  | None => existsb (fun r => (fst r <=? c) && (c <=? snd r))%N other_digits
  end.

(** [s.isdigit()]: not empty, and every character is a digit. *)
Definition isdigit (s : string) : bool :=
  match chars s with
  | [] => false
  | cs => forallb is_digit_char cs
  end.

(** [sys.int_info.default_max_str_digits] *)
Definition int_max_str_digits : N := 4300.

Fixpoint int_from (acc : Z) (cs : list N) : result Z :=
  match cs with
  | [] => Ok acc
  | c :: cs' =>
      match decimal_value c with
      | Some d => int_from (10 * acc + d) cs'
      | None => Raise ValueError
      end
  end.

(** [int(s)] for a string that passed [isdigit] (so no sign, blank or
    underscore occurs): [ValueError] when the string has more than
    [int_max_str_digits] characters or holds one that is no decimal
    digit, the decimal value otherwise. *)
Definition int (s : string) : result Z :=
  let cs := chars s in
  if (int_max_str_digits <? N.of_nat (length cs))%N then Raise ValueError
  else
    match cs with
    | [] => Raise ValueError
    | _ => int_from 0 cs
    end.

(** [str(n)] for an integer (the integers printed here come from [int]
    or are small, below the length at which [str] refuses). *)
Definition str (n : Z) : string := pretty n.

Definition lower_char (c : ascii) : ascii :=
  let n := nat_of_ascii c in
  if (65 <=? n)%nat && (n <=? 90)%nat then ascii_of_nat (n + 32) else c.

(** [s.lower()], as far as ASCII goes: the ASCII capitals are mapped,
    and so are the two characters outside ASCII whose lower-case form
    holds an ASCII letter, U+0130 (to i followed by U+0307) and U+212A
    (to k).  Every other character outside ASCII is left as it is;
    where [str.lower] changes one, it changes it into characters
    outside ASCII, so the ASCII letters of the result, and what lies
    between them, are those of [str.lower]. *)
Fixpoint lower (s : string) : string :=
  match s with
  | EmptyString => EmptyString
  | String c rest =>
      let plain := String (lower_char c) (lower rest) in
      match rest with
      | EmptyString => plain
      | String d rest1 =>
          if Ascii.eqb c "196" && Ascii.eqb d "176"
          then String "i" (String "204" (String "135" (lower rest1)))
          else
            match rest1 with
            | EmptyString => plain
            | String e rest2 =>
                if Ascii.eqb c "226" && Ascii.eqb d "132" && Ascii.eqb e "170"
                then String "k" (lower rest2)
                else plain
            end
      end
  end.

End Str.

(** ** Location resolver *)

(** [key in table] followed by [table[key]] on a dictionary literal. *)
Fixpoint dict_get {V : Type} (table : list (string * V)) (key : string) : option V :=
  match table with
  | [] => None
  | (k, v) :: table' => if String.eqb k key then Some v else dict_get table' key
  end.

Definition unknown_location : string * string := ("Unknown City", "Unknown State").

Definition city_map : list (string * (string * string)) :=
  [ ("110001", ("New Delhi", "Delhi"));
    ("400001", ("Mumbai", "Maharashtra"));
    ("560001", ("Bengaluru", "Karnataka"));
    ("600001", ("Chennai", "Tamil Nadu"));
    ("700001", ("Kolkata", "West Bengal"));
    ("500001", ("Hyderabad", "Telangana"));
    ("380001", ("Ahmedabad", "Gujarat")) ].

Definition ranges : list (Z * Z * string) :=
  [ (110000, 110099, "Delhi");
    (400000, 444999, "Maharashtra");
    (560000, 591999, "Karnataka");
    (600000, 643999, "Tamil Nadu");
    (670000, 695999, "Kerala");
    (700000, 749999, "West Bengal");
    (500000, 534999, "Andhra Pradesh");
    (505000, 535999, "Telangana");
    (380000, 396999, "Gujarat");
    (180000, 194999, "Jammu & Kashmir");
    (750000, 769999, "Odisha");
    (800000, 849999, "Bihar");
    (820000, 839999, "Jharkhand");
    (140000, 160999, "Punjab");
    (160000, 179999, "Haryana");
    (201000, 285999, "Uttar Pradesh");
    (301000, 345999, "Rajasthan");
    (360000, 389999, "Gujarat");
    (793000, 799999, "Meghalaya");
    (781000, 788999, "Assam") ].

(** [start <= pin <= end] *)
Definition in_range (pin : Z) (r : Z * Z * string) : bool :=
  let '(start, end_, _) := r in (start <=? pin)%Z && (pin <=? end_)%Z.

(** The loop [for start, end, state in ranges]: the state of the first
    range that holds [pin]. *)
Fixpoint scan_ranges (table : list (Z * Z * string)) (pin : Z) : option string :=
  match table with
  | [] => None
  | r :: table' => if in_range pin r then Some (snd r) else scan_ranges table' pin
  end.

(** [map_pincode_to_city] with its range table as an argument. *)
Definition map_pincode_to_city_with (table : list (Z * Z * string)) (pincode : string)
  : result (string * string) :=
  if negb (Str.truthy pincode) || negb (Str.isdigit pincode) then Ok unknown_location
  else
    match Str.int pincode with
    | Raise e => Raise e
    | Ok pin =>
        match dict_get city_map (Str.str pin) with
        | Some found => Ok found
        | None =>
            match scan_ranges table pin with
            | Some state => Ok ("Pincode " ++ pincode, state)
            | None => Ok unknown_location
            end
        end
    end.

Definition map_pincode_to_city : string -> result (string * string) :=
  map_pincode_to_city_with ranges.

(** ** Gateways *)

(** A weather reading, the dictionary with keys ["desc"] and ["temp"].
    Both values are only ever interpolated into text, so each is kept
    as the text [str] gives for it. *)
Record reading : Type := Reading { desc : option string; temp : option string }.

Definition default_reading : reading :=
  {| desc := Some "clear sky"; temp := Some "unknown" |}.

(** What the handler reads off the decoded reply [r] of the weather
    service: whether [r.get("cod") == 200], and the two fields
    [r["weather"][0]["description"]] and [r["main"]["temp"]], [None]
    where the access raises. *)
Record owm_reply : Type := OwmReply {
  cod_is_200 : bool;
  weather_0_description : option string;
  main_temp : option string }.

Inductive polly_outcome : Type :=
| PollyRaises
| PollyResponse (audio_stream : bool).

Record path : Type := Path { parent : string; name : string }.

Record world : Type := World {
  (** [os.environ.get("OPENWEATHER_KEY")] *)
  OPENWEATHER_KEY : option string;
  (** [requests.get(url, timeout=10).json()] for the query [q];
      [None] when building the URL, the request or the decoding raises
      (a timeout is one such raise), or the reply has no [get]. *)
  requests_get_json : string -> option owm_reply;
  (** [boto3.client("polly", ...)] returns ([false]: it raises) *)
  boto3_client : bool;
  (** [polly.synthesize_speech], by whether [Engine="neural"] is
      passed, the text and the voice *)
  synthesize_speech : bool -> string -> string -> polly_outcome;
  (** opening and writing the audio file succeeds *)
  write_audio : path -> bool;
  (** [gTTS(text, lang).save(path)] succeeds *)
  gtts_save : string -> string -> path -> bool;
  (** [int(time.time())] *)
  time_time : Z }.

Definition get_weather_for_place (w : world) (city_or_district : string) : reading :=
  if negb (Str.truthy_opt (OPENWEATHER_KEY w)) then default_reading
  else
    let q := city_or_district ++ ",IN" in
    match requests_get_json w q with
    | None => default_reading
    | Some r =>
        if cod_is_200 r then
          match weather_0_description r, main_temp r with
          | Some d, Some t => {| desc := Some d; temp := Some t |}
          | _, _ => default_reading
          end
        else default_reading
    end.

Definition mapping : list (string * Z) :=
  [ ("Ahmedabad", 28);
    ("Surat", 35);
    ("Mumbai", 45);
    ("Delhi", 30);
    ("Bengaluru", 40);
    ("Chennai", 38);
    ("Hyderabad", 34);
    ("Kolkata", 32) ].

(** The loop [for key in mapping], in the order of the literal. *)
Fixpoint first_price (table : list (string * Z)) (city : string) : Z :=
  match table with
  | [] => 32
  | (key, price) :: table' =>
      if Str.contains (Str.lower key) (Str.lower city) then price
      else first_price table' city
  end.

Definition get_tomato_price_demo (city : string) : Z := first_price mapping city.

(** ** Speech synthesis *)

Definition synthesize_aws_polly (w : world) (text : string) (out_path : path)
    (voice_id : string) : result bool :=
  if negb (boto3_client w) then Raise Exception
  else
    let resp :=
      match synthesize_speech w true text voice_id with
      | PollyRaises => synthesize_speech w false text voice_id
      | r => r
      end in
    match resp with
    | PollyRaises => Raise Exception
    | PollyResponse stream =>
        if stream then (if write_audio w out_path then Ok true else Raise Exception)
        else Ok false
    end.

Definition synthesize_gtts (w : world) (text : string) (out_path : path)
    (lang_code : string) : bool :=
  gtts_save w text lang_code out_path.

(** ** Message composer *)

Definition build_message (lang city : string) (weather : reading) (price : Z) : string :=
  let desc := default "clear" (desc weather) in
  let temp := default "unknown" (temp weather) in
  if String.eqb lang "en" then
    "Current weather in " ++ city ++ ": " ++ desc ++ ", temperature " ++ temp
      ++ " degrees Celsius. Today's tomato price is " ++ Str.str price
      ++ " rupees per kilogram."
  else if String.eqb lang "hi" then
    city ++ " में मौजूदा मौसम " ++ desc ++ " है, तापमान " ++ temp
      ++ " डिग्री सेल्सियस। आज टमाटर का भाव " ++ Str.str price
      ++ " रुपये प्रति किलो है।"
  else if String.eqb lang "gu" then
    city ++ " માં હાલનું હવામાન " ++ desc ++ " છે, તાપમાન " ++ temp
      ++ " ડિગ્રિ સેલ્સિયસ. આજે ટામેટાની કિંમત " ++ Str.str price
      ++ " રૂપિયા પ્રતિ કિલોગ્રામ છે."
  else
    "Current weather in " ++ city ++ ": " ++ desc ++ ", temperature " ++ temp
      ++ " degrees Celsius. Tomato price: " ++ Str.str price
      ++ " rupees per kilogram.".

(** ** Call sessions and call-control responses *)

(** One entry of [sessions]: the dictionary with keys ["lang"],
    ["pincode_digits"] and ["step"]. *)
Record session : Type := Session {
  lang : string;
  pincode_digits : list string;
  step : Z }.

(** The form of a webhook request, with the two parts of the request
    line the handler reads.  [form.get("CallSid")] and
    [headers.get("host")] are [None] when absent. *)
Record request : Type := Request {
  CallSid : option string;
  Digits : string;
  host : option string;
  scheme : string }.

Record say : Type := SayText { text : string; language : option string }.

(** The verbs appended to a [VoiceResponse], in order. *)
Inductive verb : Type :=
| Gather (action : string) (num_digits : Z) (method : string)
         (timeout : option Z) (prompts : list say)
| Redirect (url : string)
| Play (url : string)
| Say (s : say)
| Hangup.

Definition response : Type := list verb.

(** [f"{x}"] for a value that may be [None]. *)
Definition str_opt (x : option string) : string := default "None" x.

Definition AUDIO_DIR : string := "audio".

Definition ivr_entry : response :=
  [ Gather "/language" 1 "POST" None
      [ {| text := "Press 1 for English. Press 2 for Hindi. Press 3 for Gujarati.";
           language := Some "en-IN" |} ];
    Redirect "/ivr" ].

(** The chain [if Digits == "1" ... elif ... elif ...] over the initial
    [lang = "en"]. *)
Definition select_lang (digits : string) : string :=
  if String.eqb digits "1" then "en"
  else if String.eqb digits "2" then "hi"
  else if String.eqb digits "3" then "gu"
  else "en".

Definition handle_language (req : request) (sessions : gmap (option string) session)
  : gmap (option string) session * response :=
  let call_sid := CallSid req in
  let lang := select_lang (Digits req) in
  let sessions := <[call_sid := {| lang := lang; pincode_digits := []; step := 1 |}]> sessions in
  (sessions,
   [ Gather "/collect_digit" 1 "POST" (Some 5)
       [ {| text := "Please enter the first digit of your six digit pincode.";
            language := None |} ] ]).

Definition default_session : session :=
  {| lang := "en"; pincode_digits := []; step := 1 |}.

(** The branch of [collect_digit] that picks the backend; a raise of
    the first backend is caught and counts as [False], any other
    language leaves [ok = False]. *)
Definition synthesize (w : world) (lang message_text : string) (out_path : path) : bool :=
  if String.eqb lang "en" || String.eqb lang "hi" then
    match synthesize_aws_polly w message_text out_path "Aditi" with
    | Ok ok => ok
    | Raise _ => false
    end
  else if String.eqb lang "gu" then synthesize_gtts w message_text out_path "gu"
  else false.

(** [city if "Pincode" not in city and "Unknown" not in city else state] *)
Definition location_name (city state : string) : string :=
  if negb (Str.contains "Pincode" city) && negb (Str.contains "Unknown" city)
  then city else state.

Definition audio_filename (w : world) (call_sid : option string) (lang : string) : string :=
  str_opt call_sid ++ "_" ++ Str.str (time_time w) ++ "_" ++ lang ++ ".mp3".

Definition audio_url (req : request) (filename : string) : string :=
  scheme req ++ "://" ++ str_opt (host req) ++ "/audio/" ++ filename.

(** The handler returns the store it leaves behind and either the
    response or the exception that ended it.  The session is written
    back before the branch on [step]; it is removed only at the end of
    the final branch. *)
Definition collect_digit (w : world) (req : request)
    (sessions : gmap (option string) session)
  : gmap (option string) session * result response :=
  let call_sid := CallSid req in
  let session := default default_session (sessions !! call_sid) in
  let step := step session in
  let digits := (pincode_digits session ++ [Digits req])%list in
  let session := {| lang := lang session; pincode_digits := digits; step := step + 1 |} in
  let sessions := <[call_sid := session]> sessions in
  if (step <? 6)%Z then
    (sessions,
     Ok [ Gather "/collect_digit" 1 "POST" (Some 5)
            [ {| text := "Please enter digit number " ++ Str.str (step + 1)
                           ++ " of your pincode.";
                 language := None |} ] ])
  else
    let full_pincode := Str.join digits in
    match map_pincode_to_city full_pincode with
    | Raise e => (sessions, Raise e)
    | Ok (city, state) =>
        let location := location_name city state in
        let weather := get_weather_for_place w location in
        let price := get_tomato_price_demo location in
        let message_text :=
          build_message (lang session) (city ++ ", " ++ state) weather price in
        let filename := audio_filename w call_sid (lang session) in
        let out_path := {| parent := AUDIO_DIR; name := filename |} in
        let ok := synthesize w (lang session) message_text out_path in
        let terminal :=
          if ok then Play (audio_url req filename)
          else Say {| text := message_text; language := Some "en-IN" |} in
        (delete call_sid sessions, Ok [ terminal; Hangup ])
    end.

(** The text [collect_digit] composes for a resolved location: the
    gateways are asked about the location name, the message names city
    and state. *)
Definition compose (w : world) (lang city state : string) : string :=
  let location := location_name city state in
  let weather := get_weather_for_place w location in
  let price := get_tomato_price_demo location in
  build_message lang (city ++ ", " ++ state) weather price.

(** ** Runs of the service *)

Inductive event : Type :=
| LanguageSelected (req : request)
| DigitCollected (w : world) (req : request).

Definition handle (ev : event) (sessions : gmap (option string) session)
  : gmap (option string) session :=
  match ev with
  | LanguageSelected req => fst (handle_language req sessions)
  | DigitCollected w req => fst (collect_digit w req sessions)
  end.

(** The store after a sequence of events, starting from the store the
    process starts with. *)
Definition run (events : list event) : gmap (option string) session :=
  fold_left (fun sessions ev => handle ev sessions) events ∅.

Inductive reachable : gmap (option string) session -> Prop :=
| reachable_start : reachable ∅
| reachable_step ev sessions : reachable sessions -> reachable (handle ev sessions).


(** [step == len(pincode_digits) + 1] *)
Definition counts_digits (s : session) : Prop :=
  step s = Z.of_nat (length (pincode_digits s)) + 1.

(** A table key occurs in a place name in some letter casing: with
    both in lower case, the key is a piece of the name. *)
Definition contains_ignoring_case (key city : string) : Prop :=
  exists pre post, Str.lower city = pre ++ Str.lower key ++ post.

(** The ways the weather source fails for a place: the key is not
    configured; the request, the decoding or the access to a field
    raises; the reply is not a success. *)
Definition weather_source_fails (w : world) (place : string) : Prop :=
  Str.truthy_opt (OPENWEATHER_KEY w) = false
  \/ requests_get_json w (place ++ ",IN") = None
  \/ exists r, requests_get_json w (place ++ ",IN") = Some r
       /\ (cod_is_200 r = false
           \/ weather_0_description r = None \/ main_temp r = None).

(** ** Sample data *)

(** A world in which nothing outside the process answers. *)
Definition offline : world :=
  {| OPENWEATHER_KEY := None;
     requests_get_json := fun _ => None;
     boto3_client := false;
     synthesize_speech := fun _ _ _ => PollyRaises;
     write_audio := fun _ => false;
     gtts_save := fun _ _ _ => false;
     time_time := 1700000000 |}.

(** A world in which the weather service answers, the neural voice is
    refused and the standard voice delivers. *)
Definition on_air : world :=
  {| OPENWEATHER_KEY := Some "k";
     requests_get_json := fun _ =>
       Some {| cod_is_200 := true;
               weather_0_description := Some "haze";
               main_temp := Some "31.4" |};
     boto3_client := true;
     synthesize_speech := fun neural _ _ =>
       if neural then PollyRaises else PollyResponse true;
     write_audio := fun _ => true;
     gtts_save := fun _ _ _ => true;
     time_time := 1700000000 |}.

Definition keypress (call_sid digits : string) : request :=
  {| CallSid := Some call_sid; Digits := digits;
     host := Some "ivr.example"; scheme := "https" |}.

(** Language 1, then six times the superscript two. *)
Definition superscript_call : list event :=
  LanguageSelected (keypress "CA1" "1")
  :: repeat (DigitCollected offline (keypress "CA1" "²")) 6.

(** The call of the walk-through: English, then 4 0 0 0 0. *)
Definition mumbai_call : list event :=
  LanguageSelected (keypress "CA1" "1")
  :: map (fun d => DigitCollected offline (keypress "CA1" d)) ["4"; "0"; "0"; "0"; "0"].

(** ** Classes of input *)

(** Every character is ASCII. *)
Fixpoint ascii_only (s : string) : bool :=
  match s with
  | EmptyString => true
  | String c rest => (nat_of_ascii c <? 128)%nat && ascii_only rest
  end.

(** Every character is a decimal digit, of whatever script. *)
Definition decimal_only (s : string) : bool :=
  forallb (fun c => bool_decide (Str.decimal_value c <> None)) (Str.chars s).

(** The call an event belongs to. *)
Definition event_call (ev : event) : option string :=
  match ev with
  | LanguageSelected req => CallSid req
  | DigitCollected _ req => CallSid req
  end.



(** The languages [handle_language] can select. *)
Definition selectable (lang : string) : Prop :=
  lang = "en" \/ lang = "hi" \/ lang = "gu".

(** ** Runs from a given store *)

(** The store after a sequence of events, from a given store. *)
Definition run_from (sessions : gmap (option string) session) (events : list event)
  : gmap (option string) session :=
  fold_left (fun sessions ev => handle ev sessions) events sessions.



(** * Properties *)

(** ** The session store along a run *)

Lemma reachable_run events : reachable (run events).
Proof.
  unfold run.
  assert (H : forall start, reachable start ->
            reachable (fold_left (fun sessions ev => handle ev sessions) events start)).
  { induction events as [|ev events IH]; intros start Hs; simpl; [exact Hs|].
    apply IH. now apply reachable_step. }
  apply H, reachable_start.
Qed.


(** What [collect_digit] leaves under the caller's key: the extended
    session, unless the final branch ran to its end. *)
Lemma collect_digit_stored (w : world) (req : request)
    (sessions : gmap (option string) session) :
  let s := default default_session (sessions !! CallSid req) in
  let s' := {| lang := lang s;
               pincode_digits := (pincode_digits s ++ [Digits req])%list;
               step := step s + 1 |} in
  (step s < 6 /\
   fst (collect_digit w req sessions) = <[CallSid req := s']> sessions /\
   exists resp, snd (collect_digit w req sessions) = Ok resp)
  \/ (6 <= step s /\
      fst (collect_digit w req sessions) = <[CallSid req := s']> sessions /\
      exists e, snd (collect_digit w req sessions) = Raise e)
  \/ (6 <= step s /\
      fst (collect_digit w req sessions) = delete (CallSid req) sessions /\
      exists resp, snd (collect_digit w req sessions) = Ok resp).
Proof.
  intros s s'. unfold collect_digit. fold s. fold s'.
  destruct (Z.ltb_spec (step s) 6) as [Hlt|Hge].
  { left. split; [exact Hlt|]. split; [reflexivity|]. eexists. reflexivity. }
  right. simpl lang. simpl pincode_digits.
  destruct (map_pincode_to_city _) as [[city state]|e]; [right|left].
  - split; [exact Hge|]. split; [apply delete_insert_eq|]. eexists. reflexivity.
  - split; [exact Hge|]. split; [reflexivity|]. eexists. reflexivity.
Qed.

Lemma handle_counts_digits (ev : event) (sessions : gmap (option string) session) :
  map_Forall (fun _ s => counts_digits s) sessions ->
  map_Forall (fun _ s => counts_digits s) (handle ev sessions).
Proof.
  intros Hinv. destruct ev as [req|w req]; simpl.
  - apply map_Forall_insert_2; [reflexivity|exact Hinv].
  - assert (Hnew : counts_digits
        {| lang := lang (default default_session (sessions !! CallSid req));
           pincode_digits :=
             (pincode_digits (default default_session (sessions !! CallSid req))
                ++ [Digits req])%list;
           step := step (default default_session (sessions !! CallSid req)) + 1 |}).
    { unfold counts_digits. simpl. rewrite length_app. simpl.
      destruct (sessions !! CallSid req) as [s|] eqn:Hs; simpl.
      - apply Hinv in Hs. unfold counts_digits in Hs. lia.
      - lia. }
    destruct (collect_digit_stored w req sessions)
      as [(_ & -> & _)|[(_ & -> & _)|(_ & -> & _)]].
    + apply map_Forall_insert_2; assumption.
    + apply map_Forall_insert_2; assumption.
    + apply map_Forall_delete. exact Hinv.
Qed.

Lemma reachable_counts_digits sessions :
  reachable sessions -> map_Forall (fun _ s => counts_digits s) sessions.
Proof.
  induction 1 as [|ev sessions _ IH].
  - apply map_Forall_empty.
  - now apply handle_counts_digits.
Qed.



(** ** The handlers *)

(** C4. Language selection: digit 1 is English, 2 Hindi, 3 Gujarati and
    any other digit English; the handler writes, under the call's id, a
    session with that language, no digits and step 1 (whatever was
    stored there before, and leaving other calls alone), and answers
    with one directive, collect one digit, prompting for the first
    digit of the pincode. *)
Theorem handle_language_spec :
  select_lang "1" = "en" /\ select_lang "2" = "hi" /\ select_lang "3" = "gu"
  /\ (forall d, d <> "1" -> d <> "2" -> d <> "3" -> select_lang d = "en")
  /\ forall (req : request) (sessions : gmap (option string) session),
       fst (handle_language req sessions) !! CallSid req
         = Some {| lang := select_lang (Digits req); pincode_digits := []; step := 1 |}
       /\ (forall cid, cid <> CallSid req ->
             fst (handle_language req sessions) !! cid = sessions !! cid)
       /\ snd (handle_language req sessions)
          = [ Gather "/collect_digit" 1 "POST" (Some 5)
                [ {| text := "Please enter the first digit of your six digit pincode.";
                     language := None |} ] ].
Proof.
  repeat split; try reflexivity.
  - intros d H1 H2 H3. unfold select_lang.
    destruct (String.eqb_spec d "1"); [contradiction|].
    destruct (String.eqb_spec d "2"); [contradiction|].
    destruct (String.eqb_spec d "3"); [contradiction|reflexivity].
  - simpl. apply lookup_insert_eq.
  - intros cid Hne. simpl. apply lookup_insert_ne. congruence.
Qed.

Lemma handle_language_spec_witness :
  select_lang "9" = "en"
  /\ fst (handle_language (keypress "CA1" "2") ∅) !! (Some "CA2") = None.
Proof.
  destruct handle_language_spec as (_ & _ & _ & Hother & Hstore).
  split.
  - apply Hother; discriminate.
  - destruct (Hstore (keypress "CA1" "2") ∅) as (_ & Hrest & _).
    rewrite Hrest; [reflexivity|discriminate].
Defined.

(** C3. A digit for a call without a session does not raise: the
    handler proceeds from the session (English, no digits, step 1), so
    it does what it does for a call holding exactly that session; it
    stores the digit with step 2 and asks for digit number 2. *)
Theorem collect_digit_unknown_call (w : world) (req : request) (sessions : gmap (option string) session) :
  sessions !! CallSid req = None ->
  collect_digit w req sessions
    = collect_digit w req
        (<[CallSid req := {| lang := "en"; pincode_digits := []; step := 1 |}]> sessions)
  /\ collect_digit w req sessions
     = (<[CallSid req := {| lang := "en"; pincode_digits := [Digits req]; step := 2 |}]>
          sessions,
        Ok [ Gather "/collect_digit" 1 "POST" (Some 5)
               [ {| text := "Please enter digit number 2 of your pincode.";
                    language := None |} ] ]).
Proof.
  intros Hnone. unfold collect_digit.
  rewrite lookup_insert_eq, Hnone, insert_insert_eq. simpl. split; reflexivity.
Qed.

Lemma collect_digit_unknown_call_witness :
  snd (collect_digit offline (keypress "CA7" "4") ∅)
  = Ok [ Gather "/collect_digit" 1 "POST" (Some 5)
           [ {| text := "Please enter digit number 2 of your pincode.";
                language := None |} ] ].
Proof.
  destruct (collect_digit_unknown_call offline (keypress "CA7" "4") ∅) as [_ H].
  - reflexivity.
  - rewrite H. reflexivity.
Defined.

(** C1. While the pincode is incomplete the stored step is the number
    of collected digits plus one: language selection stores step 1 with
    no digits; every session of every reachable store satisfies
    [step = len(pincode_digits) + 1]; and a digit event short of the
    final one appends its digit and adds exactly one to the step. *)
Theorem step_counts_digits :
  (forall (req : request) (sessions : gmap (option string) session) (s : session),
      fst (handle_language req sessions) !! CallSid req = Some s ->
      pincode_digits s = [] /\ step s = 1)
  /\ (forall (sessions : gmap (option string) session) (cid : option string) (s : session),
        reachable sessions -> sessions !! cid = Some s ->
        step s = Z.of_nat (length (pincode_digits s)) + 1)
  /\ (forall (w : world) (req : request) (sessions : gmap (option string) session)
             (s : session),
        sessions !! CallSid req = Some s -> step s < 6 ->
        fst (collect_digit w req sessions) !! CallSid req
        = Some {| lang := lang s;
                  pincode_digits := (pincode_digits s ++ [Digits req])%list;
                  step := step s + 1 |}).
Proof.
  split; [|split].
  - intros req sessions s. simpl. rewrite lookup_insert_eq.
    intros [= <-]. split; reflexivity.
  - intros sessions cid s Hr Hs.
    exact (reachable_counts_digits _ Hr _ _ Hs).
  - intros w req sessions s Hs Hlt. unfold collect_digit. rewrite Hs. simpl.
    destruct (Z.ltb_spec (step s) 6) as [_|Hge]; [|lia].
    simpl. apply lookup_insert_eq.
Qed.

Lemma step_counts_digits_witness :
  let sessions :=
    handle (DigitCollected offline (keypress "CA1" "4"))
      (handle (LanguageSelected (keypress "CA1" "2")) ∅) in
  sessions !! Some "CA1" = Some {| lang := "hi"; pincode_digits := ["4"]; step := 2 |}
  /\ 2 = Z.of_nat (length ["4"]) + 1.
Proof.
  intros sessions.
  assert (Hs : sessions !! Some "CA1"
               = Some {| lang := "hi"; pincode_digits := ["4"]; step := 2 |}).
  { destruct step_counts_digits as (_ & _ & Hdigit).
    apply (Hdigit offline (keypress "CA1" "4")
             (handle (LanguageSelected (keypress "CA1" "2")) ∅)
             {| lang := "hi"; pincode_digits := []; step := 1 |}).
    - reflexivity.
    - reflexivity. }
  split; [exact Hs|].
  destruct step_counts_digits as (_ & Hinv & _).
  apply (Hinv sessions (Some "CA1")
           {| lang := "hi"; pincode_digits := ["4"]; step := 2 |}).
  - do 2 apply reachable_step. apply reachable_start.
  - exact Hs.
Defined.

(** C2. The store can come to hold more than six digits for a call.
    When the six digits joined pass [isdigit] and [int] rejects them,
    the final branch raises after the six-digit session was written
    back and before it is removed; the session stays, and the next
    digit event for the call is taken and stored as a seventh digit. *)
Theorem seventh_digit_is_stored :
  snd (collect_digit offline (keypress "CA1" "²")
         (run (LanguageSelected (keypress "CA1" "1")
               :: repeat (DigitCollected offline (keypress "CA1" "²")) 5)))
  = Raise ValueError
  /\ reachable (run superscript_call)
  /\ run superscript_call !! Some "CA1"
     = Some {| lang := "en"; pincode_digits := repeat "²" 6; step := 7 |}
  /\ reachable (run (superscript_call ++ [DigitCollected offline (keypress "CA1" "1")]))
  /\ run (superscript_call ++ [DigitCollected offline (keypress "CA1" "1")]) !! Some "CA1"
     = Some {| lang := "en"; pincode_digits := (repeat "²" 6 ++ ["1"])%list; step := 8 |}.
Proof.
  split; [vm_compute; reflexivity|].
  split; [apply reachable_run|].
  split; [vm_compute; reflexivity|].
  split; [apply reachable_run|].
  vm_compute; reflexivity.
Qed.

(** ** The location resolver *)

Lemma dict_get_In {V : Type} (table : list (string * V)) key v :
  dict_get table key = Some v -> In (key, v) table.
Proof.
  induction table as [|[k x] table IH]; simpl; [discriminate|].
  destruct (String.eqb_spec k key) as [->|_].
  - intros [= ->]. now left.
  - intros H. right. now apply IH.
Qed.

(** The first range of a table that holds [pin], read off the table. *)
Lemma scan_ranges_first table before lo hi state after pin :
  table = (before ++ (lo, hi, state) :: after)%list ->
  lo <= pin <= hi ->
  (forall lo' hi' state', In (lo', hi', state') before -> ~ (lo' <= pin <= hi')) ->
  scan_ranges table pin = Some state.
Proof.
  intros -> Hin. induction before as [|[[lo' hi'] state'] before IH]; intros Hout; simpl.
  - destruct (Z.leb_spec lo pin), (Z.leb_spec pin hi); simpl; try lia. reflexivity.
  - assert (Hrest : forall l h st, In (l, h, st) before -> ~ (l <= pin <= h)).
    { intros l h st Hl. apply (Hout l h st). now apply in_cons. }
    destruct (Z.leb_spec lo' pin), (Z.leb_spec pin hi'); simpl; auto.
    exfalso. apply (Hout lo' hi' state'); [apply in_eq|lia].
Qed.

Lemma scan_ranges_none table pin :
  (forall lo hi state, In (lo, hi, state) table -> ~ (lo <= pin <= hi)) ->
  scan_ranges table pin = None.
Proof.
  induction table as [|[[lo hi] state] table IH]; intros Hout; simpl; [reflexivity|].
  assert (Hrest : forall l h st, In (l, h, st) table -> ~ (l <= pin <= h)).
  { intros l h st Hl. apply (Hout l h st). now apply in_cons. }
  destruct (Z.leb_spec lo pin), (Z.leb_spec pin hi); simpl; auto.
  exfalso. apply (Hout lo hi state); [apply in_eq|lia].
Qed.

Lemma isdigit_truthy s : Str.isdigit s = true -> Str.truthy s = true.
Proof. destruct s; [discriminate|reflexivity]. Qed.

(** C5. Every postal code of the exact-match table resolves to the
    city and region the table gives for it, whatever the range table
    holds. *)
Theorem exact_match_first table pincode found :
  dict_get city_map pincode = Some found ->
  map_pincode_to_city_with table pincode = Ok found.
Proof.
  intros Hget. apply dict_get_In in Hget. simpl in Hget.
  repeat (destruct Hget as [[= <- <-]|Hget]; [vm_compute; reflexivity|]).
  destruct Hget.
Qed.

Lemma exact_match_first_witness :
  map_pincode_to_city_with [(400000, 444999, "Elsewhere")] "400001"
  = Ok ("Mumbai", "Maharashtra").
Proof.
  apply (exact_match_first [(400000, 444999, "Elsewhere")] "400001").
  reflexivity.
Defined.

(** C6, as the claim words it, fails: seven characters with a leading
    zero are numeric and are no key of the exact-match table, their
    value 110001 lies in the first range, and the resolver answers with
    the city of the exact-match table, not with a placeholder city. *)
Lemma leading_zero_hits_exact_table :
  ~ (forall pincode pin state,
        Str.isdigit pincode = true -> Str.int pincode = Ok pin ->
        dict_get city_map pincode = None ->
        scan_ranges ranges pin = Some state ->
        map_pincode_to_city pincode = Ok ("Pincode " ++ pincode, state)).
Proof.
  intros H. specialize (H "0110001" 110001 "Delhi").
  assert (Hres : map_pincode_to_city "0110001" = Ok ("New Delhi", "Delhi"))
    by (vm_compute; reflexivity).
  rewrite Hres in H.
  discriminate H; reflexivity.
Qed.

(** C6, amended. A numeric postal code that [int] converts (decimal
    digits only, at most 4300 of them) and whose value, written in
    decimal without leading zeros, is no key of the exact-match table
    and lies in at least one range resolves to the placeholder city
    ["Pincode <code>"] and the region of the first listed range that
    holds the value; where two listed ranges overlap the earlier one
    wins, as 505000 shows, which lies in the seventh and the eighth
    range. *)
Theorem first_listed_range_wins :
  (forall table before lo hi state after pincode pin,
      Str.isdigit pincode = true -> Str.int pincode = Ok pin ->
      dict_get city_map (Str.str pin) = None ->
      table = (before ++ (lo, hi, state) :: after)%list ->
      lo <= pin <= hi ->
      (forall lo' hi' state', In (lo', hi', state') before -> ~ (lo' <= pin <= hi')) ->
      map_pincode_to_city_with table pincode = Ok ("Pincode " ++ pincode, state))
  /\ (forall earlier later pincode pin,
        Str.isdigit pincode = true -> Str.int pincode = Ok pin ->
        dict_get city_map (Str.str pin) = None ->
        in_range pin earlier = true -> in_range pin later = true ->
        map_pincode_to_city_with [earlier; later] pincode
        = Ok ("Pincode " ++ pincode, snd earlier))
  /\ map_pincode_to_city "505000" = Ok ("Pincode 505000", "Andhra Pradesh").
Proof.
  split; [|split].
  - intros table before lo hi state after pincode pin Hd Hi Hexact Htable Hin Hout.
    unfold map_pincode_to_city_with.
    rewrite Hd, (isdigit_truthy _ Hd), Hi, Hexact. simpl.
    now rewrite (scan_ranges_first table before lo hi state after pin).
  - intros earlier later pincode pin Hd Hi Hexact He _.
    unfold map_pincode_to_city_with.
    rewrite Hd, (isdigit_truthy _ Hd), Hi, Hexact. simpl.
    now rewrite He.
  - vm_compute. reflexivity.
Qed.

Lemma first_listed_range_wins_witness :
  map_pincode_to_city "0505000" = Ok ("Pincode 0505000", "Andhra Pradesh")
  /\ map_pincode_to_city_with
       [(500000, 534999, "Andhra Pradesh"); (505000, 535999, "Telangana")] "505000"
     = Ok ("Pincode 505000", "Andhra Pradesh").
Proof.
  destruct first_listed_range_wins as (Hfirst & Hpair & _).
  split.
  - apply (Hfirst ranges (firstn 6 ranges) 500000 534999 "Andhra Pradesh"
             (skipn 7 ranges) "0505000" 505000);
      try (vm_compute; reflexivity).
    + lia.
    + intros lo' hi' state' Hin. simpl in Hin.
      repeat (destruct Hin as [[= <- <- <-]|Hin]; [lia|]). destruct Hin.
  - apply (Hpair (500000, 534999, "Andhra Pradesh") (505000, 535999, "Telangana")
             "505000" 505000); vm_compute; reflexivity.
Defined.

(** Outside the digits the resolver answers with the unknown pair. *)
Lemma map_pincode_to_city_not_digits pincode :
  Str.isdigit pincode = false ->
  map_pincode_to_city pincode = Ok ("Unknown City", "Unknown State").
Proof.
  intros H. unfold map_pincode_to_city, map_pincode_to_city_with.
  rewrite H, orb_true_r. reflexivity.
Qed.

(** A decimal code outside both tables resolves to the unknown pair. *)
Lemma map_pincode_to_city_no_match pincode pin :
  Str.isdigit pincode = true -> Str.int pincode = Ok pin ->
  dict_get city_map (Str.str pin) = None ->
  (forall lo hi state, In (lo, hi, state) ranges -> ~ (lo <= pin <= hi)) ->
  map_pincode_to_city pincode = Ok ("Unknown City", "Unknown State").
Proof.
  intros Hd Hi Hexact Hout. unfold map_pincode_to_city, map_pincode_to_city_with.
  rewrite Hd, (isdigit_truthy _ Hd), Hi, Hexact, (scan_ranges_none ranges pin Hout).
  reflexivity.
Qed.

(** C7. A superscript two passes the guard [isdigit] and is rejected by
    [int]: the resolver raises [ValueError] where the unknown pair is
    due. *)
Theorem superscript_digit_raises :
  Str.truthy "²" = true /\ Str.isdigit "²" = true
  /\ map_pincode_to_city "²" = Raise ValueError
  /\ map_pincode_to_city "²²²²²²" = Raise ValueError.
Proof. repeat split; vm_compute; reflexivity. Qed.

(** ** Text *)

Lemma append_cons c (a b : string) : String c a ++ b = String c (a ++ b).
Proof. reflexivity. Qed.

Lemma append_empty (b : string) : "" ++ b = b.
Proof. reflexivity. Qed.

Lemma append_assoc (a b c : string) : (a ++ b) ++ c = a ++ b ++ c.
Proof.
  induction a as [|x a IH]; [reflexivity|].
  now rewrite !append_cons, IH.
Qed.

Lemma prefix_append needle post : String.prefix needle (needle ++ post) = true.
Proof.
  induction needle as [|c needle IH].
  - rewrite append_empty. now destruct post.
  - rewrite append_cons. simpl. destruct (ascii_dec c c); [exact IH|contradiction].
Qed.

Lemma prefix_split needle hay :
  String.prefix needle hay = true -> exists post, hay = needle ++ post.
Proof.
  revert hay. induction needle as [|c needle IH]; intros hay H.
  - now exists hay.
  - destruct hay as [|d hay]; simpl in H; [discriminate|].
    destruct (ascii_dec c d) as [->|_]; [|discriminate].
    destruct (IH hay H) as [post ->]. now exists post.
Qed.

Lemma contains_unfold needle hay :
  Str.contains needle hay
  = String.prefix needle hay
    || match hay with
       | EmptyString => false
       | String _ hay' => Str.contains needle hay'
       end.
Proof. destruct hay; reflexivity. Qed.

Lemma contains_here needle post : Str.contains needle (needle ++ post) = true.
Proof. now rewrite contains_unfold, prefix_append. Qed.

Lemma contains_later needle pre hay :
  Str.contains needle hay = true -> Str.contains needle (pre ++ hay) = true.
Proof.
  intros H. induction pre as [|c pre IH]; [exact H|].
  rewrite append_cons, contains_unfold, IH. apply orb_true_r.
Qed.

Lemma contains_spec needle hay :
  Str.contains needle hay = true <-> exists pre post, hay = pre ++ needle ++ post.
Proof.
  split.
  - induction hay as [|c hay IH]; rewrite contains_unfold; intros H.
    + rewrite orb_false_r in H. destruct (prefix_split _ _ H) as [post ->].
      now exists "", post.
    + apply orb_true_iff in H. destruct H as [H|H].
      * destruct (prefix_split _ _ H) as [post Hpost]. now exists "", post.
      * destruct (IH H) as (pre & post & ->). now exists (String c pre), post.
  - intros (pre & post & ->). apply contains_later, contains_here.
Qed.

(** The test of the source, [key.lower() in city.lower()], is
    containment of the key in some letter casing. *)
Lemma contains_lower_iff key city :
  Str.contains (Str.lower key) (Str.lower city) = true
  <-> contains_ignoring_case key city.
Proof. apply contains_spec. Qed.

(** ** The gateways *)

Lemma first_price_first table before key price after city :
  table = (before ++ (key, price) :: after)%list ->
  contains_ignoring_case key city ->
  (forall k p, In (k, p) before -> ~ contains_ignoring_case k city) ->
  first_price table city = price.
Proof.
  intros -> Hkey. induction before as [|[k p] before IH]; intros Hout; simpl.
  - apply contains_lower_iff in Hkey. now rewrite Hkey.
  - destruct (Str.contains (Str.lower k) (Str.lower city)) eqn:Hk.
    + exfalso. apply (Hout k p); [apply in_eq|]. now apply contains_lower_iff.
    + apply IH. intros k' p' Hin. apply (Hout k' p'). now apply in_cons.
Qed.

Lemma first_price_none table city :
  (forall k p, In (k, p) table -> ~ contains_ignoring_case k city) ->
  first_price table city = 32.
Proof.
  induction table as [|[k p] table IH]; intros Hout; simpl; [reflexivity|].
  destruct (Str.contains (Str.lower k) (Str.lower city)) eqn:Hk.
  - exfalso. apply (Hout k p); [apply in_eq|]. now apply contains_lower_iff.
  - apply IH. intros k' p' Hin. apply (Hout k' p'). now apply in_cons.
Qed.

Lemma first_price_some table city :
  (exists k p, In (k, p) table /\ contains_ignoring_case k city) ->
  exists before key price after,
    table = (before ++ (key, price) :: after)%list
    /\ contains_ignoring_case key city
    /\ (forall k p, In (k, p) before -> ~ contains_ignoring_case k city)
    /\ first_price table city = price.
Proof.
  induction table as [|[k p] table IH]; intros (k0 & p0 & Hin & Hc).
  - destruct Hin.
  - destruct (Str.contains (Str.lower k) (Str.lower city)) eqn:Hk.
    + exists [], k, p, table. simpl. rewrite Hk.
      split; [reflexivity|]. split; [now apply contains_lower_iff|].
      split; [intros ? ? []|reflexivity].
    + destruct Hin as [[= -> ->]|Hin].
      { apply contains_lower_iff in Hc. congruence. }
      destruct IH as (before & key & price & after & -> & Hkey & Hout & Hprice).
      { now exists k0, p0. }
      exists ((k, p) :: before), key, price, after. simpl. rewrite Hk.
      split; [reflexivity|]. split; [exact Hkey|]. split; [|exact Hprice].
      intros k' p' [[= <- <-]|Hin'].
      * intros Hc'. apply contains_lower_iff in Hc'. congruence.
      * now apply (Hout k' p').
Qed.

(** C10. The price lookup matches by containment of a table key in the
    place name, case ignored, taking the keys in the order of the
    table: a name that contains some key gets the price of the first
    key of the table it contains; that is, a name that contains a key,
    and none of the keys listed before it, gets that key's price (so a
    name containing "mumbai" in any casing, and neither of the two keys
    listed before it, gets 45); a name that contains no key gets 32. *)
Theorem price_by_first_contained_key :
  (forall city,
      (exists k p, In (k, p) mapping /\ contains_ignoring_case k city) ->
      exists before key price after,
        mapping = (before ++ (key, price) :: after)%list
        /\ contains_ignoring_case key city
        /\ (forall k p, In (k, p) before -> ~ contains_ignoring_case k city)
        /\ get_tomato_price_demo city = price)
  /\ (forall before key price after city,
      mapping = (before ++ (key, price) :: after)%list ->
      contains_ignoring_case key city ->
      (forall k p, In (k, p) before -> ~ contains_ignoring_case k city) ->
      get_tomato_price_demo city = price)
  /\ (forall city,
        contains_ignoring_case "Mumbai" city ->
        ~ contains_ignoring_case "Ahmedabad" city ->
        ~ contains_ignoring_case "Surat" city ->
        get_tomato_price_demo city = 45)
  /\ (forall city,
        (forall k p, In (k, p) mapping -> ~ contains_ignoring_case k city) ->
        get_tomato_price_demo city = 32).
Proof.
  split; [|split; [|split]].
  - intros city. apply first_price_some.
  - intros before key price after city Hmap Hkey Hout.
    now apply (first_price_first mapping before key price after city).
  - intros city Hm Ha Hs.
    apply (first_price_first mapping [("Ahmedabad", 28); ("Surat", 35)] "Mumbai" 45
             (skipn 3 mapping)); [reflexivity|exact Hm|].
    intros k p [[= <- <-]|[[= <- <-]|[]]]; assumption.
  - intros city Hout. now apply first_price_none.
Qed.

Lemma price_by_first_contained_key_witness :
  get_tomato_price_demo "Navi MUMBAI" = 45.
Proof.
  destruct price_by_first_contained_key as (_ & Hfirst & _ & _).
  apply (Hfirst [("Ahmedabad", 28); ("Surat", 35)] "Mumbai" 45 (skipn 3 mapping)).
  - reflexivity.
  - exists "navi ", "". reflexivity.
  - intros k p [[= <- <-]|[[= <- <-]|[]]] Hc;
      apply contains_lower_iff in Hc; vm_compute in Hc; discriminate.
Defined.

Lemma get_weather_for_place_default w place :
  weather_source_fails w place -> get_weather_for_place w place = default_reading.
Proof.
  unfold weather_source_fails, get_weather_for_place.
  intros [Hkey|[Hexn|(r & Hr & Hbad)]].
  - now rewrite Hkey.
  - rewrite Hexn. now destruct (negb _).
  - rewrite Hr. destruct (negb _); [reflexivity|].
    destruct Hbad as [Hcod|[Hd|Ht]].
    + now rewrite Hcod.
    + rewrite Hd. now destruct (cod_is_200 r).
    + rewrite Ht. now destruct (cod_is_200 r), (weather_0_description r).
Qed.

(** ** The composed message *)

(** Every template carries the description and the price it is given. *)
Lemma build_message_contains lang place weather price :
  Str.contains (default "clear" (desc weather)) (build_message lang place weather price) = true
  /\ Str.contains (Str.str price) (build_message lang place weather price) = true.
Proof.
  unfold build_message.
  generalize (default "clear" (desc weather)) (default "unknown" (temp weather))
             (Str.str price).
  intros d t p.
  destruct (String.eqb lang "en"), (String.eqb lang "hi"), (String.eqb lang "gu");
    split; repeat first [ apply contains_here | apply contains_later ].
Qed.

(** C8, as the claim words it, fails: the price lookup has no source
    that could fail and answers from its table whatever happens to the
    weather source; for Mumbai it answers 45, not 32. *)
Lemma price_of_mumbai_is_not_default :
  ~ (forall w place,
        weather_source_fails w place ->
        get_weather_for_place w place = default_reading
        /\ get_tomato_price_demo place = 32).
Proof.
  intros H. destruct (H offline "Mumbai") as [_ Hprice].
  - left. reflexivity.
  - vm_compute in Hprice. discriminate.
Qed.

(** C8, amended. The weather lookup never fails outward: whenever its
    source fails (no key configured, a raise, a reply that is not a
    success) it returns the reading "clear sky" with temperature
    "unknown".  The price lookup reads a fixed table and cannot fail;
    it returns 32 for every place name that contains no table key.
    So, when the weather source fails for a place that contains no
    table key, the composed message is the template filled with the
    default reading and 32: a non-empty text containing "clear sky"
    and "32". *)
Theorem gateways_fall_back_to_defaults :
  (forall w place,
      weather_source_fails w place ->
      get_weather_for_place w place
      = {| desc := Some "clear sky"; temp := Some "unknown" |})
  /\ (forall place,
        (forall k p, In (k, p) mapping -> ~ contains_ignoring_case k place) ->
        get_tomato_price_demo place = 32)
  /\ (forall w lang city state,
        weather_source_fails w (location_name city state) ->
        (forall k p, In (k, p) mapping ->
                     ~ contains_ignoring_case k (location_name city state)) ->
        compose w lang city state
        = build_message lang (city ++ ", " ++ state)
            {| desc := Some "clear sky"; temp := Some "unknown" |} 32
        /\ compose w lang city state <> ""
        /\ Str.contains "clear sky" (compose w lang city state) = true
        /\ Str.contains "32" (compose w lang city state) = true).
Proof.
  split; [|split].
  - exact get_weather_for_place_default.
  - intros place Hnone. now apply first_price_none.
  - intros w lang city state Hfail Hnone.
    assert (Hmsg : compose w lang city state
                   = build_message lang (city ++ ", " ++ state) default_reading 32).
    { unfold compose, get_tomato_price_demo.
      now rewrite (get_weather_for_place_default _ _ Hfail), (first_price_none _ _ Hnone). }
    destruct (build_message_contains lang (city ++ ", " ++ state) default_reading 32)
      as [Hdesc Hprice].
    rewrite Hmsg. split; [reflexivity|]. split; [|split].
    + intros Hempty. rewrite Hempty in Hdesc. discriminate.
    + exact Hdesc.
    + exact Hprice.
Qed.

Lemma gateways_fall_back_to_defaults_witness :
  Str.contains "32" (compose offline "hi" "Unknown City" "Unknown State") = true.
Proof.
  destruct gateways_fall_back_to_defaults as (_ & _ & Hmsg).
  apply (Hmsg offline "hi" "Unknown City" "Unknown State").
  - left. reflexivity.
  - intros k p Hin Hc. apply contains_lower_iff in Hc. simpl in Hin.
    repeat (destruct Hin as [[= <- <-]|Hin]; [vm_compute in Hc; discriminate|]).
    destruct Hin.
Defined.

(** ** The final transition *)

(** In a final transition in which the resolver answers (the sixth
    digit) the response is one directive followed by hangup.  When
    synthesis fails that directive speaks the composed text, built
    from the template of the session's language, and is no play
    directive; when synthesis succeeds it plays the audio. *)
Theorem final_transition_response (w : world) (req : request)
    (sessions : gmap (option string) session) (city state : string) :
  let s := default default_session (sessions !! CallSid req) in
  let message := compose w (lang s) city state in
  let filename := audio_filename w (CallSid req) (lang s) in
  let ok := synthesize w (lang s) message {| parent := AUDIO_DIR; name := filename |} in
  6 <= step s ->
  map_pincode_to_city (Str.join (pincode_digits s ++ [Digits req])%list) = Ok (city, state) ->
  exists terminal,
    snd (collect_digit w req sessions) = Ok [terminal; Hangup]
    /\ last [terminal; Hangup] = Some Hangup
    /\ (ok = false ->
        terminal = Say {| text := message; language := Some "en-IN" |}
        /\ forall url, terminal <> Play url)
    /\ (ok = true -> terminal = Play (audio_url req filename)).
Proof.
  intros s message filename ok Hstep Hcity.
  unfold collect_digit. fold s.
  destruct (Z.ltb_spec (step s) 6) as [Hlt|_]; [lia|].
  cbv zeta. simpl lang. simpl pincode_digits. rewrite Hcity.
  exists (if ok then Play (audio_url req filename)
          else Say {| text := message; language := Some "en-IN" |}).
  split; [reflexivity|]. split; [reflexivity|]. split.
  - intros ->. split; [reflexivity|discriminate].
  - intros ->. reflexivity.
Qed.

Lemma final_transition_response_witness :
  snd (collect_digit offline (keypress "CA1" "1")
         {[ Some "CA1" := {| lang := "en";
                             pincode_digits := ["4"; "0"; "0"; "0"; "0"];
                             step := 6 |} ]})
  = Ok [ Say {| text := compose offline "en" "Mumbai" "Maharashtra";
                language := Some "en-IN" |};
         Hangup ].
Proof.
  destruct (final_transition_response offline (keypress "CA1" "1")
              {[ Some "CA1" := {| lang := "en";
                                  pincode_digits := ["4"; "0"; "0"; "0"; "0"];
                                  step := 6 |} ]}
              "Mumbai" "Maharashtra") as (terminal & Hresp & _ & Hsay & _).
  - vm_compute. discriminate.
  - vm_compute. reflexivity.
  - rewrite Hresp. destruct Hsay as [-> _]; reflexivity.
Defined.

(** C9. A final transition need not end in a response.  When the six
    digits joined pass [isdigit] and [int] rejects them, the resolver
    raises before the message is composed: whatever the speech
    backends would do, the handler returns no directive, neither the
    spoken text nor hangup, and leaves the session in the store. *)
Theorem final_transition_aborts (w : world) :
  collect_digit w (keypress "CA1" "²")
    (run (LanguageSelected (keypress "CA1" "2")
          :: repeat (DigitCollected offline (keypress "CA1" "²")) 5))
  = ({[ Some "CA1" := {| lang := "hi"; pincode_digits := repeat "²" 6; step := 7 |} ]},
     Raise ValueError).
Proof. vm_compute. reflexivity. Qed.

(** ** A call from start to end *)

Example mumbai_call_in_progress :
  run mumbai_call !! Some "CA1"
  = Some {| lang := "en"; pincode_digits := ["4"; "0"; "0"; "0"; "0"]; step := 6 |}.
Proof. vm_compute. reflexivity. Qed.

Example mumbai_call_spoken :
  collect_digit offline (keypress "CA1" "1") (run mumbai_call)
  = (∅,
     Ok [ Say {| text := "Current weather in Mumbai, Maharashtra: clear sky, temperature unknown degrees Celsius. Today's tomato price is 45 rupees per kilogram.";
                 language := Some "en-IN" |};
          Hangup ]).
Proof. vm_compute. reflexivity. Qed.

Example mumbai_call_played :
  collect_digit on_air (keypress "CA1" "1") (run mumbai_call)
  = (∅, Ok [ Play "https://ivr.example/audio/CA1_1700000000_en.mp3"; Hangup ]).
Proof. vm_compute. reflexivity. Qed.

Example surat_code_resolved :
  map_pincode_to_city "395007" = Ok ("Pincode 395007", "Gujarat").
Proof. vm_compute. reflexivity. Qed.

Example surat_code_message :
  compose on_air "gu" "Pincode 395007" "Gujarat"
  = "Pincode 395007, Gujarat માં હાલનું હવામાન haze છે, તાપમાન 31.4 ડિગ્રિ સેલ્સિયસ. આજે ટામેટાની કિંમત 32 રૂપિયા પ્રતિ કિલોગ્રામ છે.".
Proof. vm_compute. reflexivity. Qed.

(** * Further properties of the code *)

(** ** The resolver on its whole domain *)

Lemma decimal_value_digit c d : Str.decimal_value c = Some d -> 0 <= d <= 9.
Proof.
  unfold Str.decimal_value.
  destruct (find _ Str.decimal_zeros) as [z|] eqn:Hz; [|discriminate].
  apply find_some in Hz. destruct Hz as [_ Hz].
  apply andb_true_iff in Hz. destruct Hz as [H1 H2].
  apply N.leb_le in H1. apply N.ltb_lt in H2. intros [= <-]. lia.
Qed.

Lemma int_from_nonneg cs acc v : 0 <= acc -> Str.int_from acc cs = Ok v -> acc <= v.
Proof.
  revert acc. induction cs as [|c cs IH]; intros acc Hacc H; simpl in H.
  - injection H as <-. lia.
  - destruct (Str.decimal_value c) as [d|] eqn:Hd; [|discriminate].
    apply decimal_value_digit in Hd. apply IH in H; lia.
Qed.

Lemma int_from_value_error cs acc e : Str.int_from acc cs = Raise e -> e = ValueError.
Proof.
  revert acc. induction cs as [|c cs IH]; intros acc H; simpl in H; [discriminate|].
  destruct (Str.decimal_value c); [now apply IH in H|now injection H].
Qed.

Lemma int_from_decimal cs acc :
  (exists v, Str.int_from acc cs = Ok v)
  <-> forallb (fun c => bool_decide (Str.decimal_value c <> None)) cs = true.
Proof.
  revert acc. induction cs as [|c cs IH]; intros acc.
  - split; [reflexivity|]. intros _. now exists acc.
  - cbn [forallb Str.int_from]. destruct (Str.decimal_value c) as [d|].
    + rewrite bool_decide_eq_true_2 by discriminate. apply IH.
    + rewrite bool_decide_eq_false_2 by (intros H; now apply H).
      split; [intros [v H]|]; discriminate.
Qed.

Lemma int_value_error s e : Str.int s = Raise e -> e = ValueError.
Proof.
  unfold Str.int. destruct (_ <? _)%N; [now intros [= <-]|].
  destruct (Str.chars s) as [|c cs]; [now intros [= <-]|].
  apply int_from_value_error.
Qed.

Lemma int_nonneg s v : Str.int s = Ok v -> 0 <= v.
Proof.
  unfold Str.int. destruct (_ <? _)%N; [discriminate|].
  destruct (Str.chars s) as [|c cs]; [discriminate|].
  now apply int_from_nonneg.
Qed.

(** When [int] raises on a string that is not empty. *)
Lemma int_raises s :
  Str.isdigit s = true ->
  ((exists e, Str.int s = Raise e)
   <-> decimal_only s = false
       \/ (Str.int_max_str_digits < N.of_nat (length (Str.chars s)))%N).
Proof.
  intros Hd.
  assert (Hne : Str.chars s <> []).
  { unfold Str.isdigit in Hd. now destruct (Str.chars s). }
  clear Hd. unfold Str.int, decimal_only. cbv zeta.
  destruct (N.ltb_spec Str.int_max_str_digits (N.of_nat (length (Str.chars s))))
    as [Hlong|Hshort].
  { split; [now right|]. intros _. now exists ValueError. }
  pose proof (int_from_decimal (Str.chars s) 0) as Hiff.
  destruct (Str.chars s) as [|c cs]; [now destruct Hne|].
  destruct (Str.int_from 0 (c :: cs)) as [v|e].
  - rewrite (proj1 Hiff) by now exists v.
    split; [intros [e H]; discriminate|]. intros [H|H]; [discriminate|lia].
  - split; [|intros _; now exists e]. intros _. left.
    apply not_true_is_false. intros H. apply Hiff in H. destruct H as [v H]. discriminate.
Qed.

(** The ways the resolver can answer. *)
Lemma map_pincode_to_city_cases table pincode :
  (Str.isdigit pincode = false /\ map_pincode_to_city_with table pincode = Ok unknown_location)
  \/ (Str.isdigit pincode = true /\ (exists e, Str.int pincode = Raise e)
      /\ map_pincode_to_city_with table pincode = Raise ValueError)
  \/ (exists pin, Str.isdigit pincode = true /\ Str.int pincode = Ok pin /\ 0 <= pin
       /\ ((exists found, dict_get city_map (Str.str pin) = Some found
                          /\ map_pincode_to_city_with table pincode = Ok found)
           \/ (dict_get city_map (Str.str pin) = None
               /\ exists state, scan_ranges table pin = Some state
                   /\ map_pincode_to_city_with table pincode
                      = Ok ("Pincode " ++ pincode, state))
           \/ (dict_get city_map (Str.str pin) = None /\ scan_ranges table pin = None
               /\ map_pincode_to_city_with table pincode = Ok unknown_location))).
Proof.
  unfold map_pincode_to_city_with.
  destruct (Str.isdigit pincode) eqn:Hd.
  2:{ left. rewrite orb_true_r. now split. }
  right. rewrite (isdigit_truthy _ Hd). simpl negb. simpl orb. cbv iota.
  destruct (Str.int pincode) as [pin|e] eqn:Hpin.
  - right. exists pin. split; [reflexivity|]. split; [reflexivity|].
    split; [now apply (int_nonneg pincode)|].
    destruct (dict_get city_map (Str.str pin)) as [found|].
    + left. now exists found.
    + right. destruct (scan_ranges table pin) as [state|].
      * left. split; [reflexivity|]. now exists state.
      * right. now repeat split.
  - left. split; [reflexivity|]. split; [now exists e|].
    now rewrite (int_value_error _ _ Hpin).
Qed.

Lemma chars_ascii s :
  ascii_only s = true ->
  length (Str.chars s) = String.length s
  /\ Forall (fun c => (c < 128)%N) (Str.chars s).
Proof.
  induction s as [|c s IH]; intros H; [now split|].
  simpl in H. apply andb_true_iff in H. destruct H as [Hc Hs].
  apply Nat.ltb_lt in Hc.
  assert (Hb : (N_of_ascii c < 128)%N).
  { unfold nat_of_ascii in Hc. lia. }
  cbn [Str.chars]. cbv zeta. rewrite (proj2 (N.ltb_lt _ _) Hb).
  destruct (IH Hs) as [Hlen Hall]. split; [simpl; now rewrite Hlen|now constructor].
Qed.

Lemma other_digits_beyond_ascii :
  forallb (fun r => (128 <=? fst r)%N) Str.other_digits = true.
Proof. vm_compute. reflexivity. Qed.

Lemma ascii_digit_is_decimal c :
  (c < 128)%N -> Str.is_digit_char c = true -> Str.decimal_value c <> None.
Proof.
  intros Hc. unfold Str.is_digit_char.
  destruct (Str.decimal_value c); [discriminate|]. intros H.
  apply existsb_exists in H. destruct H as (r & Hin & Hr).
  pose proof other_digits_beyond_ascii as Hall.
  rewrite forallb_forall in Hall. specialize (Hall r Hin).
  apply andb_true_iff in Hr. destruct Hr as [Hlo _].
  apply N.leb_le in Hall, Hlo. lia.
Qed.

Lemma isdigit_ascii_decimal s :
  ascii_only s = true -> Str.isdigit s = true -> decimal_only s = true.
Proof.
  intros Ha Hd. destruct (chars_ascii s Ha) as [_ Hall].
  unfold Str.isdigit in Hd. unfold decimal_only.
  assert (Hdig : forallb Str.is_digit_char (Str.chars s) = true)
    by (destruct (Str.chars s); [discriminate|exact Hd]).
  clear Hd. induction Hall as [|c cs Hc _ IH]; [reflexivity|].
  simpl in *. apply andb_true_iff in Hdig. destruct Hdig as [H1 H2].
  rewrite (IH H2), andb_true_r.
  apply bool_decide_eq_true_2. now apply ascii_digit_is_decimal.
Qed.

Lemma resolver_returns_on_ascii pincode :
  ascii_only pincode = true ->
  (N.of_nat (String.length pincode) <= Str.int_max_str_digits)%N ->
  exists found, map_pincode_to_city pincode = Ok found.
Proof.
  intros Hascii Hlen. unfold map_pincode_to_city.
  destruct (map_pincode_to_city_cases ranges pincode)
    as [(Hd & ->)|[(Hd & Hraise & _)|(pin & _ & _ & _ & Hres)]].
  - eexists. reflexivity.
  - exfalso. apply (int_raises _ Hd) in Hraise. destruct Hraise as [Hdec|Hlong].
    + rewrite (isdigit_ascii_decimal _ Hascii Hd) in Hdec. discriminate.
    + rewrite (proj1 (chars_ascii _ Hascii)) in Hlong. lia.
  - destruct Hres as [(found & _ & ->)|[(_ & state & _ & ->)|(_ & _ & ->)]];
      eexists; reflexivity.
Qed.

Lemma resolver_raises_value_error pincode e :
  map_pincode_to_city pincode = Raise e -> e = ValueError.
Proof.
  unfold map_pincode_to_city.
  destruct (map_pincode_to_city_cases ranges pincode)
    as [(_ & ->)|[(_ & _ & ->)|(pin & _ & _ & _ & Hres)]].
  - discriminate.
  - now intros [= <-].
  - destruct Hres as [(found & _ & ->)|[(_ & state & _ & ->)|(_ & _ & ->)]]; discriminate.
Qed.

(** X1. The resolver raises exactly on the inputs that pass [isdigit]
    and either hold a character that is no decimal digit or have more
    than 4300 characters, and then it is a [ValueError]; in
    particular it returns on every ASCII input of at most 4300
    characters. *)
Theorem resolver_raises_exactly :
  (forall pincode e,
      map_pincode_to_city pincode = Raise e
      <-> e = ValueError /\ Str.isdigit pincode = true
          /\ (decimal_only pincode = false
              \/ (4300 < N.of_nat (length (Str.chars pincode)))%N))
  /\ (forall pincode,
        ascii_only pincode = true ->
        (N.of_nat (String.length pincode) <= 4300)%N ->
        exists found, map_pincode_to_city pincode = Ok found).
Proof.
  split.
  - intros pincode e. unfold map_pincode_to_city.
    destruct (map_pincode_to_city_cases ranges pincode)
      as [(Hd & ->)|[(Hd & Hraise & ->)|(pin & Hd & Hpin & _ & Hres)]].
    + split; [discriminate|]. intros (_ & Hd' & _). congruence.
    + apply (int_raises _ Hd) in Hraise.
      split; [intros [= <-]; now repeat split|]. now intros (-> & _).
    + assert (Hok : ~ (decimal_only pincode = false
                  \/ (Str.int_max_str_digits < N.of_nat (length (Str.chars pincode)))%N)).
      { intros H. apply (int_raises _ Hd) in H. destruct H as [e' H]. congruence. }
      split; [|intros (_ & _ & H); now destruct Hok].
      destruct Hres as [(found & _ & ->)|[(_ & state & _ & ->)|(_ & _ & ->)]]; discriminate.
  - exact resolver_returns_on_ascii.
Qed.

Lemma resolver_raises_exactly_witness :
  exists found, map_pincode_to_city "40*#01" = Ok found.
Proof.
  destruct resolver_raises_exactly as [_ Hascii].
  apply (Hascii "40*#01"); [reflexivity|vm_compute; discriminate].
Defined.

Lemma exact_key_value pin found :
  dict_get city_map (Str.str pin) = Some found ->
  (pin = 110001 /\ found = ("New Delhi", "Delhi"))
  \/ (pin = 400001 /\ found = ("Mumbai", "Maharashtra"))
  \/ (pin = 560001 /\ found = ("Bengaluru", "Karnataka"))
  \/ (pin = 600001 /\ found = ("Chennai", "Tamil Nadu"))
  \/ (pin = 700001 /\ found = ("Kolkata", "West Bengal"))
  \/ (pin = 500001 /\ found = ("Hyderabad", "Telangana"))
  \/ (pin = 380001 /\ found = ("Ahmedabad", "Gujarat")).
Proof.
  intros H. apply dict_get_In in H. simpl in H.
  assert (Hinj : forall n, Str.str pin = Str.str n -> pin = n)
    by (intros n; apply pretty_Z_inj).
  destruct H as [[= Hk <-]|H]; [left; split; [apply Hinj; rewrite <- Hk; vm_compute|]; reflexivity|right].
  destruct H as [[= Hk <-]|H]; [left; split; [apply Hinj; rewrite <- Hk; vm_compute|]; reflexivity|right].
  destruct H as [[= Hk <-]|H]; [left; split; [apply Hinj; rewrite <- Hk; vm_compute|]; reflexivity|right].
  destruct H as [[= Hk <-]|H]; [left; split; [apply Hinj; rewrite <- Hk; vm_compute|]; reflexivity|right].
  destruct H as [[= Hk <-]|H]; [left; split; [apply Hinj; rewrite <- Hk; vm_compute|]; reflexivity|right].
  destruct H as [[= Hk <-]|H]; [left; split; [apply Hinj; rewrite <- Hk; vm_compute|]; reflexivity|].
  destruct H as [[= Hk <-]|[]]. right. split; [apply Hinj; rewrite <- Hk; vm_compute|]; reflexivity.
Qed.

(** What the scan of [ranges] answers, by the value. *)
Lemma scan_ranges_regions pin state :
  scan_ranges ranges pin = Some state ->
  (state = "Delhi" /\ 110000 <= pin <= 110099)
  \/ (state = "Maharashtra" /\ 400000 <= pin <= 444999)
  \/ (state = "Karnataka" /\ 560000 <= pin <= 591999)
  \/ (state = "Tamil Nadu" /\ 600000 <= pin <= 643999)
  \/ (state = "Kerala" /\ 670000 <= pin <= 695999)
  \/ (state = "West Bengal" /\ 700000 <= pin <= 749999)
  \/ (state = "Andhra Pradesh" /\ 500000 <= pin <= 534999)
  \/ (state = "Telangana" /\ 535000 <= pin <= 535999)
  \/ (state = "Gujarat" /\ 360000 <= pin <= 396999)
  \/ (state = "Jammu & Kashmir" /\ 180000 <= pin <= 194999)
  \/ (state = "Odisha" /\ 750000 <= pin <= 769999)
  \/ (state = "Bihar" /\ 800000 <= pin <= 849999)
  \/ (state = "Punjab" /\ 140000 <= pin <= 160999)
  \/ (state = "Haryana" /\ 161000 <= pin <= 179999)
  \/ (state = "Uttar Pradesh" /\ 201000 <= pin <= 285999)
  \/ (state = "Rajasthan" /\ 301000 <= pin <= 345999)
  \/ (state = "Meghalaya" /\ 793000 <= pin <= 799999)
  \/ (state = "Assam" /\ 781000 <= pin <= 788999).
Proof.
  unfold ranges. cbn [scan_ranges in_range snd].
  repeat match goal with
         | |- context [((?lo <=? pin)%Z && (pin <=? ?hi)%Z)%bool] =>
             destruct (Z.leb_spec lo pin); [destruct (Z.leb_spec pin hi)|];
             cbn [andb]; cbv iota; try (exfalso; lia)
         end;
    intros Hscan; try discriminate Hscan; injection Hscan as <-;
    repeat first [ left; split; [reflexivity|lia] | right ];
    split; [reflexivity|lia].
Qed.

Lemma scan_ranges_none_out table pin lo hi state :
  scan_ranges table pin = None -> In (lo, hi, state) table -> ~ (lo <= pin <= hi).
Proof.
  induction table as [|[[lo' hi'] state'] table IH]; intros Hnone Hin; [destruct Hin|].
  simpl in Hnone.
  destruct (Z.leb_spec lo' pin), (Z.leb_spec pin hi'); simpl in Hnone;
    try discriminate; (destruct Hin as [[= <- <- <-]|Hin]; [lia|now apply IH]).
Qed.

Lemma no_exact_key pin :
  pin <> 110001 -> pin <> 400001 -> pin <> 560001 -> pin <> 600001 ->
  pin <> 700001 -> pin <> 500001 -> pin <> 380001 ->
  dict_get city_map (Str.str pin) = None.
Proof.
  intros. destruct (dict_get city_map (Str.str pin)) as [found|] eqn:E; [|reflexivity].
  apply exact_key_value in E. intuition congruence.
Qed.

Lemma resolver_by_range pincode pin state :
  Str.isdigit pincode = true -> Str.int pincode = Ok pin ->
  dict_get city_map (Str.str pin) = None ->
  scan_ranges ranges pin = Some state ->
  map_pincode_to_city pincode = Ok ("Pincode " ++ pincode, state).
Proof.
  intros Hd Hi He Hs. unfold map_pincode_to_city, map_pincode_to_city_with.
  rewrite Hd, (isdigit_truthy _ Hd), Hi, He, Hs. reflexivity.
Qed.

Lemma resolver_by_key pincode pin found :
  Str.isdigit pincode = true -> Str.int pincode = Ok pin ->
  dict_get city_map (Str.str pin) = Some found ->
  map_pincode_to_city pincode = Ok found.
Proof.
  intros Hd Hi He. unfold map_pincode_to_city, map_pincode_to_city_with.
  rewrite Hd, (isdigit_truthy _ Hd), Hi, He. reflexivity.
Qed.

(** X2. No input resolves to the region "Jharkhand": its range
    (820000 to 839999) lies inside the range of Bihar, which is listed
    before it. *)
Theorem jharkhand_is_never_answered pincode city :
  map_pincode_to_city pincode <> Ok (city, "Jharkhand").
Proof.
  unfold map_pincode_to_city.
  destruct (map_pincode_to_city_cases ranges pincode)
    as [(_ & ->)|[(_ & _ & ->)|(pin & _ & _ & _ & Hres)]]; try discriminate.
  destruct Hres as [(found & Hkey & ->)|[(_ & state & Hscan & ->)|(_ & _ & ->)]];
    [| |discriminate].
  - apply exact_key_value in Hkey.
    repeat (destruct Hkey as [[_ ->]|Hkey]; [discriminate|]).
    destruct Hkey as [_ ->]. discriminate.
  - apply scan_ranges_regions in Hscan.
    repeat (destruct Hscan as [[-> _]|Hscan]; [discriminate|]).
    destruct Hscan as [-> _]. discriminate.
Qed.

Lemma scan_andhra pin :
  500000 <= pin <= 534999 -> scan_ranges ranges pin = Some "Andhra Pradesh".
Proof.
  intros Hin.
  apply (scan_ranges_first ranges (firstn 6 ranges) 500000 534999 "Andhra Pradesh"
           (skipn 7 ranges)); [reflexivity|exact Hin|].
  intros lo hi st H. simpl in H.
  repeat (destruct H as [[= <- <- <-]|H]; [lia|]). destruct H.
Qed.

(** X3. The range of Telangana is shadowed by the range of Andhra
    Pradesh listed before it: every code with a value from 505000 to
    534999, where the two overlap, resolves to Andhra Pradesh, and an
    answer with region Telangana comes only from the exact key 500001
    (Hyderabad) or from a value from 535000 to 535999. *)
Theorem telangana_range_is_shadowed :
  (forall pincode pin,
      Str.isdigit pincode = true -> Str.int pincode = Ok pin ->
      505000 <= pin <= 534999 ->
      map_pincode_to_city pincode = Ok ("Pincode " ++ pincode, "Andhra Pradesh"))
  /\ (forall pincode city,
        map_pincode_to_city pincode = Ok (city, "Telangana") ->
        exists pin, Str.int pincode = Ok pin
          /\ ((pin = 500001 /\ city = "Hyderabad")
              \/ (535000 <= pin <= 535999 /\ city = "Pincode " ++ pincode))).
Proof.
  split.
  - intros pincode pin Hd Hi Hin.
    apply (resolver_by_range pincode pin); try assumption.
    + apply no_exact_key; lia.
    + apply scan_andhra. lia.
  - intros pincode city. unfold map_pincode_to_city.
    destruct (map_pincode_to_city_cases ranges pincode)
      as [(_ & ->)|[(_ & _ & ->)|(pin & _ & Hi & _ & Hres)]]; try discriminate.
    destruct Hres as [(found & Hkey & ->)|[(_ & state & Hscan & ->)|(_ & _ & ->)]];
      [| |discriminate].
    + intros [= Hf]. exists pin. split; [exact Hi|]. left.
      apply exact_key_value in Hkey.
      repeat (destruct Hkey as [[Hp Hfound]|Hkey];
              [rewrite Hfound in Hf; try discriminate Hf; injection Hf as <-; now split|]).
      destruct Hkey as [_ Hfound]. rewrite Hfound in Hf. discriminate Hf.
    + intros [= <- ->]. exists pin. split; [exact Hi|]. right.
      apply scan_ranges_regions in Hscan.
      repeat (destruct Hscan as [[Hst Hb]|Hscan]; [try discriminate Hst; now split|]).
      destruct Hscan as [Hst _]. discriminate.
Qed.

Lemma telangana_range_is_shadowed_witness :
  map_pincode_to_city "520010" = Ok ("Pincode 520010", "Andhra Pradesh").
Proof.
  destruct telangana_range_is_shadowed as [Hoverlap _].
  apply (Hoverlap "520010" 520010); [reflexivity|reflexivity|lia].
Defined.

(** X4. Every numeric code whose value is below 110000 (so every code
    of at most five significant digits) or above 849999 resolves to the
    unknown pair. *)
Theorem outside_every_range_is_unknown pincode pin :
  Str.isdigit pincode = true -> Str.int pincode = Ok pin ->
  pin < 110000 \/ 849999 < pin ->
  map_pincode_to_city pincode = Ok ("Unknown City", "Unknown State").
Proof.
  intros Hd Hi Hout.
  apply (map_pincode_to_city_no_match pincode pin Hd Hi).
  - apply no_exact_key; lia.
  - intros lo hi state Hin. simpl in Hin.
    repeat (destruct Hin as [[= <- <- <-]|Hin]; [lia|]). destruct Hin.
Qed.

Lemma outside_every_range_is_unknown_witness :
  map_pincode_to_city "40001" = Ok ("Unknown City", "Unknown State").
Proof.
  apply (outside_every_range_is_unknown "40001" 40001); [reflexivity|reflexivity|lia].
Defined.

Lemma city_map_key key found :
  In (key, found) city_map -> dict_get city_map key = Some found.
Proof.
  intros Hin. simpl in Hin.
  repeat (destruct Hin as [[= <- <-]|Hin]; [reflexivity|]). destruct Hin.
Qed.

Lemma city_map_one_key k1 k2 found :
  dict_get city_map k1 = Some found -> dict_get city_map k2 = Some found -> k1 = k2.
Proof.
  intros H1 H2. apply dict_get_In in H1, H2. simpl in H1, H2.
  repeat (destruct H1 as [[= <- <-]|H1];
          [repeat (destruct H2 as [H2|H2];
                   [first [discriminate H2|now inversion H2]|]); destruct H2|]).
  destruct H1.
Qed.

(** X5. The exact-match table is matched by value: for a numeric code
    and an entry of the table, the resolver answers with the entry's
    city and region exactly when the value of the code, written in
    decimal, is the entry's key, whatever zeros the code leads with. *)
Theorem exact_match_is_by_value pincode pin key found :
  Str.isdigit pincode = true -> Str.int pincode = Ok pin ->
  In (key, found) city_map ->
  (map_pincode_to_city pincode = Ok found <-> Str.str pin = key).
Proof.
  intros Hd Hi Hin. apply city_map_key in Hin. split.
  - unfold map_pincode_to_city.
    destruct (map_pincode_to_city_cases ranges pincode)
      as [(Hd' & _)|[(_ & _ & ->)|(pin' & _ & Hi' & _ & Hres)]]; [congruence|discriminate|].
    assert (pin' = pin) as -> by congruence.
    destruct Hres as [(found' & Hkey & ->)|[(_ & state & _ & ->)|(_ & _ & ->)]].
    + intros [= ->]. exact (city_map_one_key _ _ _ Hkey Hin).
    + intros [= <-]. exfalso. apply dict_get_In in Hin. simpl in Hin.
      change ("Pincode " ++ pincode) with (String "P" ("incode " ++ pincode)) in Hin.
      repeat (destruct Hin as [Hin|Hin]; [discriminate Hin|]). destruct Hin.
    + intros [= <-]. exfalso. apply dict_get_In in Hin. simpl in Hin.
      repeat (destruct Hin as [Hin|Hin]; [discriminate Hin|]). destruct Hin.
  - intros <-. now apply (resolver_by_key pincode pin).
Qed.

Lemma exact_match_is_by_value_witness :
  map_pincode_to_city "00400001" = Ok ("Mumbai", "Maharashtra").
Proof.
  apply (exact_match_is_by_value "00400001" 400001 "400001" ("Mumbai", "Maharashtra"));
    try reflexivity.
  right. left. reflexivity.
Defined.

Lemma chars_leading_zero pincode :
  Str.chars ("0" ++ pincode) = 48%N :: Str.chars pincode.
Proof. reflexivity. Qed.

Lemma isdigit_leading_zero pincode :
  Str.isdigit pincode = true -> Str.isdigit ("0" ++ pincode) = true.
Proof.
  unfold Str.isdigit. rewrite chars_leading_zero.
  destruct (Str.chars pincode) as [|c cs]; [discriminate|].
  intros H. cbn [forallb] in *. rewrite H. reflexivity.
Qed.

Lemma int_leading_zero pincode :
  Str.isdigit pincode = true ->
  N.of_nat (length (Str.chars pincode)) <> Str.int_max_str_digits ->
  Str.int ("0" ++ pincode) = Str.int pincode.
Proof.
  unfold Str.isdigit, Str.int. rewrite chars_leading_zero. cbv zeta.
  destruct (Str.chars pincode) as [|c cs]; [discriminate|]. intros _ Hlen.
  cbn [length] in *.
  destruct (N.ltb_spec Str.int_max_str_digits (N.of_nat (S (S (length cs)))));
    destruct (N.ltb_spec Str.int_max_str_digits (N.of_nat (S (length cs))));
    try reflexivity; lia.
Qed.

(** X6. A zero put before a numeric code changes nothing but the
    text of a placeholder city, unless the code has exactly 4300
    characters, the most [int] converts: the resolver raises on both
    or on neither, the region is the same, and the city is the same
    unless it is the placeholder, which quotes the code as it was
    entered. *)
Theorem leading_zero_keeps_the_answer pincode :
  Str.isdigit pincode = true ->
  N.of_nat (length (Str.chars pincode)) <> 4300%N ->
  match map_pincode_to_city pincode with
  | Raise e => map_pincode_to_city ("0" ++ pincode) = Raise e
  | Ok (city, state) =>
      map_pincode_to_city ("0" ++ pincode)
      = Ok (if String.eqb city ("Pincode " ++ pincode)
            then "Pincode 0" ++ pincode else city, state)
  end.
Proof.
  intros Hd Hlen.
  pose proof (isdigit_leading_zero _ Hd) as Hd0.
  pose proof (int_leading_zero _ Hd Hlen) as Hi0.
  unfold map_pincode_to_city, map_pincode_to_city_with.
  rewrite Hd, Hd0, (isdigit_truthy _ Hd), (isdigit_truthy _ Hd0), Hi0.
  cbn [negb orb]. cbv iota.
  destruct (Str.int pincode) as [pin|e]; [|reflexivity].
  destruct (dict_get city_map (Str.str pin)) as [[city state]|] eqn:Hkey.
  - apply dict_get_In in Hkey. simpl in Hkey.
    change ("Pincode " ++ pincode) with (String "P" ("incode " ++ pincode)).
    repeat (destruct Hkey as [[= _ <- <-]|Hkey]; [reflexivity|]). destruct Hkey.
  - destruct (scan_ranges ranges pin) as [state|].
    + rewrite String.eqb_refl. reflexivity.
    + reflexivity.
Qed.

Lemma leading_zero_keeps_the_answer_witness :
  map_pincode_to_city "0395007" = Ok ("Pincode 0395007", "Gujarat").
Proof.
  pose proof (leading_zero_keeps_the_answer "395007") as H.
  apply H; [reflexivity|vm_compute; discriminate].
Defined.

(** X7. The name [collect_digit] passes to the gateways for a
    resolved location is the city or the region, never holds
    "Pincode", and holds "Unknown" only for the unknown pair. *)
Theorem gateways_get_a_plain_name pincode city state :
  map_pincode_to_city pincode = Ok (city, state) ->
  Str.contains "Pincode" (location_name city state) = false
  /\ (location_name city state = city \/ location_name city state = state)
  /\ (Str.contains "Unknown" (location_name city state) = true ->
      (city, state) = ("Unknown City", "Unknown State")).
Proof.
  unfold map_pincode_to_city.
  destruct (map_pincode_to_city_cases ranges pincode)
    as [(_ & ->)|[(_ & _ & ->)|(pin & _ & _ & _ & Hres)]]; try discriminate.
  { intros [= <- <-]. vm_compute. repeat split; auto. }
  destruct Hres as [(found & Hkey & ->)|[(_ & st & Hscan & ->)|(_ & _ & ->)]].
  - intros [= ->]. apply exact_key_value in Hkey.
    repeat (destruct Hkey as [[_ [= -> ->]]|Hkey];
            [vm_compute; repeat split; auto; discriminate|]).
    destruct Hkey as [_ [= -> ->]]. vm_compute; repeat split; auto; discriminate.
  - intros [= <- <-].
    assert (Hname : location_name ("Pincode " ++ pincode) st = st).
    { unfold location_name.
      change ("Pincode " ++ pincode) with ("Pincode" ++ " " ++ pincode).
      now rewrite contains_here. }
    rewrite Hname. apply scan_ranges_regions in Hscan.
    repeat (destruct Hscan as [[-> _]|Hscan];
            [vm_compute; repeat split; auto; discriminate|]).
    destruct Hscan as [-> _]. vm_compute; repeat split; auto; discriminate.
  - intros [= <- <-]. vm_compute. repeat split; auto.
Qed.

Lemma gateways_get_a_plain_name_witness :
  location_name "Pincode 395007" "Gujarat" = "Gujarat"
  \/ location_name "Pincode 395007" "Gujarat" = "Pincode 395007".
Proof.
  destruct (gateways_get_a_plain_name "395007" "Pincode 395007" "Gujarat") as (_ & H & _).
  - vm_compute. reflexivity.
  - destruct H as [H|H]; [right|left]; exact H.
Defined.

(** ** The gateways on their whole domain *)

(** X8. A weather reading always carries a description and a
    temperature (so the defaults of [build_message] for a missing
    field are not used on it); a reading other than the default one
    comes only with a key configured and a reply with [cod] 200, and
    carries the two fields of that reply. *)
Theorem weather_reading_is_complete w place :
  (exists d t, get_weather_for_place w place = {| desc := Some d; temp := Some t |})
  /\ (get_weather_for_place w place <> default_reading ->
      Str.truthy_opt (OPENWEATHER_KEY w) = true
      /\ exists r, requests_get_json w (place ++ ",IN") = Some r
           /\ cod_is_200 r = true
           /\ weather_0_description r = desc (get_weather_for_place w place)
           /\ main_temp r = temp (get_weather_for_place w place)).
Proof.
  unfold get_weather_for_place.
  destruct (Str.truthy_opt (OPENWEATHER_KEY w)); simpl negb; cbv iota.
  2:{ split; [now exists "clear sky", "unknown"|intros H; now destruct H]. }
  destruct (requests_get_json w (place ++ ",IN")) as [r|].
  2:{ split; [now exists "clear sky", "unknown"|intros H; now destruct H]. }
  destruct (cod_is_200 r) eqn:Hcod.
  2:{ split; [now exists "clear sky", "unknown"|intros H; now destruct H]. }
  destruct (weather_0_description r) as [d|] eqn:Hd.
  2:{ split; [now exists "clear sky", "unknown"|intros H; now destruct H]. }
  destruct (main_temp r) as [t|] eqn:Ht.
  2:{ split; [now exists "clear sky", "unknown"|intros H; now destruct H]. }
  split; [now exists d, t|]. intros _. split; [reflexivity|].
  exists r. now repeat split.
Qed.

Lemma weather_reading_is_complete_witness :
  Str.truthy_opt (OPENWEATHER_KEY on_air) = true.
Proof.
  destruct (weather_reading_is_complete on_air "Surat") as [_ H].
  apply H. discriminate.
Defined.

Lemma first_price_in_table table city :
  first_price table city = 32
  \/ exists key, In (key, first_price table city) table
       /\ Str.contains (Str.lower key) (Str.lower city) = true.
Proof.
  induction table as [|[k p] table IH]; simpl; [now left|].
  destruct (Str.contains (Str.lower k) (Str.lower city)) eqn:Hk.
  - right. exists k. split; [now left|exact Hk].
  - destruct IH as [H|(key & Hin & Hkey)]; [now left|].
    right. exists key. split; [now right|exact Hkey].
Qed.

(** X9. The price is always between 28 and 45: it is 32 or the price
    the table gives for a key that the place name contains, case
    ignored. *)
Theorem price_is_a_table_price city :
  28 <= get_tomato_price_demo city <= 45
  /\ (get_tomato_price_demo city = 32
      \/ exists key, In (key, get_tomato_price_demo city) mapping
           /\ contains_ignoring_case key city).
Proof.
  unfold get_tomato_price_demo.
  destruct (first_price_in_table mapping city) as [H|(key & Hin & Hkey)].
  - split; [lia|now left].
  - split.
    + generalize dependent (first_price mapping city). intros price Hin.
      simpl in Hin.
      repeat (destruct Hin as [[= _ <-]|Hin]; [lia|]). destruct Hin.
    + right. exists key. split; [exact Hin|now apply contains_lower_iff].
Qed.

Lemma lower_char_idem c : Str.lower_char (Str.lower_char c) = Str.lower_char c.
Proof.
  destruct c as [[] [] [] [] [] [] [] []]; reflexivity.
Qed.

Lemma lower_char_keeps c x :
  x = "176"%char \/ x = "132"%char \/ x = "170"%char \/ x = "196"%char \/ x = "226"%char ->
  Str.lower_char c = x -> c = x.
Proof.
  intros Hx H. destruct c as [[] [] [] [] [] [] [] []];
    vm_compute in H; try exact H;
    destruct Hx as [->|[->|[->|[->| ->]]]]; discriminate H.
Qed.

Lemma lower_dotted r :
  Str.lower (String "196" (String "176" r))
  = String "i" (String "204" (String "135" (Str.lower r))).
Proof. reflexivity. Qed.

Lemma lower_kelvin r :
  Str.lower (String "226" (String "132" (String "170" r))) = String "k" (Str.lower r).
Proof. reflexivity. Qed.

Lemma lower_plain c r :
  c <> "196"%char -> c <> "226"%char ->
  Str.lower (String c r) = String (Str.lower_char c) (Str.lower r).
Proof.
  intros H1 H2. destruct r as [|d [|e r2]]; cbn [Str.lower];
    destruct (Ascii.eqb_spec c "196"); try contradiction;
    destruct (Ascii.eqb_spec c "226"); try contradiction; reflexivity.
Qed.

Lemma lower_196 d r :
  d <> "176"%char ->
  Str.lower (String "196" (String d r)) = String "196" (Str.lower (String d r)).
Proof.
  intros H. destruct r as [|e r2]; cbn [Str.lower];
    destruct (Ascii.eqb_spec d "176"); try contradiction; reflexivity.
Qed.

Lemma lower_226 r :
  (forall r2, r <> String "132" (String "170" r2)) ->
  Str.lower (String "226" r) = String "226" (Str.lower r).
Proof.
  intros H. destruct r as [|d [|e r2]]; try reflexivity.
  cbn [Str.lower].
  destruct (Ascii.eqb_spec d "132") as [->|]; [|reflexivity].
  destruct (Ascii.eqb_spec e "170") as [->|]; [|reflexivity].
  now destruct (H r2).
Qed.

(** The first byte of the lower-case form, by the first byte. *)
Lemma lower_first c r :
  exists x rest, Str.lower (String c r) = String x rest
    /\ (x = Str.lower_char c \/ x = "i"%char \/ x = "k"%char).
Proof.
  destruct r as [|d [|e r2]]; cbn [Str.lower].
  - eexists _, _. split; [reflexivity|now left].
  - destruct (_ && _); eexists _, _; (split; [reflexivity|]); [right; now left|now left].
  - destruct (Ascii.eqb c "196" && Ascii.eqb d "176");
      [eexists _, _; split; [reflexivity|right; now left]|].
    destruct (Ascii.eqb c "226" && Ascii.eqb d "132" && Ascii.eqb e "170");
      eexists _, _; (split; [reflexivity|]); [right; now right|now left].
Qed.

Lemma lower_starts s x rest :
  x = "176"%char \/ x = "132"%char \/ x = "170"%char ->
  Str.lower s = String x rest -> exists r, s = String x r.
Proof.
  intros Hx H. destruct s as [|c r]; [discriminate|].
  destruct (lower_first c r) as (x' & rest' & Heq & Hcase).
  rewrite Heq in H. injection H as -> ->.
  destruct Hcase as [Hc|[->| ->]].
  - symmetry in Hc. apply lower_char_keeps in Hc; [subst c; now exists r|].
    destruct Hx as [->|[->| ->]]; auto.
  - destruct Hx as [Hx|[Hx|Hx]]; discriminate.
  - destruct Hx as [Hx|[Hx|Hx]]; discriminate.
Qed.

Lemma lower_idem_upto n s :
  (String.length s <= n)%nat -> Str.lower (Str.lower s) = Str.lower s.
Proof.
  revert s. induction n as [|n IH]; intros s Hlen.
  { destruct s; [reflexivity|simpl in Hlen; lia]. }
  destruct s as [|c r]; [reflexivity|]. simpl in Hlen.
  destruct (Ascii.eqb_spec c "196") as [->|H196].
  { destruct r as [|d r1]; [reflexivity|]. simpl in Hlen.
    destruct (Ascii.eqb_spec d "176") as [->|H176].
    - rewrite lower_dotted, !lower_plain by discriminate.
      rewrite IH by lia. reflexivity.
    - rewrite (lower_196 d r1 H176).
      destruct (Str.lower (String d r1)) as [|x rest] eqn:Hlow.
      + reflexivity.
      + assert (Hx : x <> "176"%char).
        { intros ->. apply lower_starts in Hlow; [|now left].
          destruct Hlow as [r' [= -> _]]. contradiction. }
        rewrite (lower_196 x rest Hx), <- Hlow, IH by (simpl; lia). reflexivity. }
  destruct (Ascii.eqb_spec c "226") as [->|H226].
  { destruct r as [|d [|e r2]]; try reflexivity.
    - simpl in Hlen. destruct (Ascii.eqb_spec d "132") as [->|H132].
      + reflexivity.
      + rewrite (lower_226 (String d "")) by (intros r2 [= -> _]; contradiction).
        rewrite lower_226.
        * now rewrite (IH (String d "")) by (simpl; lia).
        * intros r2 H. 
          destruct (lower_first d "") as (x & rest & Heq & _).
          assert (Hlen1 : String.length (Str.lower (String d "")) = 1%nat).
          { cbn. reflexivity. }
          rewrite H in Hlen1. simpl in Hlen1. lia.
    - simpl in Hlen.
      destruct (Ascii.eqb_spec d "132") as [->|H132];
        [destruct (Ascii.eqb_spec e "170") as [->|H170]|].
      + rewrite lower_kelvin, lower_plain by discriminate.
        rewrite IH by lia. reflexivity.
      + rewrite (lower_226 (String "132" (String e r2)))
          by (intros r3 [= -> _]; contradiction).
        rewrite lower_226.
        * now rewrite (IH (String "132" (String e r2))) by (simpl; lia).
        * intros r3 H. rewrite (lower_plain "132") in H by discriminate.
          remember (Str.lower (String e r2)) as low eqn:Hlow.
          injection H as H. rewrite Hlow in H.
          apply lower_starts in H; [|right; now right].
          destruct H as [r' [= -> _]]. contradiction.
      + rewrite (lower_226 (String d (String e r2)))
          by (intros r3 [= -> _]; contradiction).
        rewrite lower_226.
        * now rewrite (IH (String d (String e r2))) by (simpl; lia).
        * intros r3 H. apply lower_starts in H; [|right; now left].
          destruct H as [r' [= -> _]]. contradiction. }
  rewrite (lower_plain c r H196 H226).
  rewrite lower_plain.
  - now rewrite lower_char_idem, IH by lia.
  - intros H. apply lower_char_keeps in H; [contradiction|]. right; right; right; now left.
  - intros H. apply lower_char_keeps in H; [contradiction|]. right; right; right; now right.
Qed.

Lemma lower_idem s : Str.lower (Str.lower s) = Str.lower s.
Proof. apply (lower_idem_upto (String.length s)). lia. Qed.

Lemma first_price_lower table a b :
  Str.lower a = Str.lower b -> first_price table a = first_price table b.
Proof.
  intros H. induction table as [|[k p] table IH]; simpl; [reflexivity|].
  now rewrite H, IH.
Qed.

(** X10. The price depends on the place name only up to the case of
    its ASCII letters: two names with the same lower-case form get the
    same price, and a name gets the price of its lower-case form. *)
Theorem price_ignores_letter_case :
  (forall a b, Str.lower a = Str.lower b ->
               get_tomato_price_demo a = get_tomato_price_demo b)
  /\ (forall city, get_tomato_price_demo (Str.lower city) = get_tomato_price_demo city).
Proof.
  split.
  - intros a b H. now apply first_price_lower.
  - intros city. apply first_price_lower, lower_idem.
Qed.

Lemma price_ignores_letter_case_witness :
  get_tomato_price_demo "CHENNAI Central" = get_tomato_price_demo "chennai central".
Proof.
  destruct price_ignores_letter_case as [H _].
  apply H. reflexivity.
Defined.

(** X11. In every language, and for any other language code, the
    composed message is non-empty and contains the place label, the
    description, the temperature and the price it was given. *)
Theorem message_carries_its_parts lang place weather price :
  Str.contains place (build_message lang place weather price) = true
  /\ Str.contains (default "clear" (desc weather))
       (build_message lang place weather price) = true
  /\ Str.contains (default "unknown" (temp weather))
       (build_message lang place weather price) = true
  /\ Str.contains (Str.str price) (build_message lang place weather price) = true
  /\ build_message lang place weather price <> "".
Proof.
  assert (Hparts :
    Str.contains place (build_message lang place weather price) = true
    /\ Str.contains (default "clear" (desc weather))
         (build_message lang place weather price) = true
    /\ Str.contains (default "unknown" (temp weather))
         (build_message lang place weather price) = true
    /\ Str.contains (Str.str price) (build_message lang place weather price) = true).
  { unfold build_message.
    generalize (default "clear" (desc weather)) (default "unknown" (temp weather))
               (Str.str price).
    intros d t p.
    destruct (String.eqb lang "en"), (String.eqb lang "hi"), (String.eqb lang "gu");
      repeat split; repeat first [ apply contains_here | apply contains_later ]. }
  destruct Hparts as (Hplace & Hdesc & Htemp & Hprice).
  repeat split; try assumption.
  unfold build_message.
  destruct (String.eqb lang "en"), (String.eqb lang "hi"), (String.eqb lang "gu");
    try discriminate;
    destruct place; discriminate.
Qed.

(** ** Calls side by side *)

(** An event rewrites the entry of its own call, by what that entry
    holds, and nothing else. *)
Lemma handle_local (ev : event) (s1 s2 : gmap (option string) session) :
  s1 !! event_call ev = s2 !! event_call ev ->
  (exists s', handle ev s1 = <[event_call ev := s']> s1
              /\ handle ev s2 = <[event_call ev := s']> s2)
  \/ (handle ev s1 = delete (event_call ev) s1
      /\ handle ev s2 = delete (event_call ev) s2).
Proof.
  intros Heq. destruct ev as [req|w req]; simpl in *.
  - left. eexists. split; reflexivity.
  - unfold collect_digit. rewrite Heq.
    destruct (_ <? 6)%Z; [left; eexists; split; reflexivity|].
    simpl lang. simpl pincode_digits.
    destruct (map_pincode_to_city _) as [[city state]|e].
    + right. simpl. now rewrite !delete_insert_eq.
    + left. eexists. split; reflexivity.
Qed.

Lemma handle_frame (ev : event) (sessions : gmap (option string) session)
    (cid : option string) :
  cid <> event_call ev -> handle ev sessions !! cid = sessions !! cid.
Proof.
  intros Hne.
  destruct (handle_local ev sessions sessions eq_refl) as [(s' & -> & _)|[-> _]].
  - now apply lookup_insert_ne.
  - now apply lookup_delete_ne.
Qed.

Lemma collect_digit_response_local (w : world) (req : request)
    (s1 s2 : gmap (option string) session) :
  s1 !! CallSid req = s2 !! CallSid req ->
  snd (collect_digit w req s1) = snd (collect_digit w req s2).
Proof.
  intros Heq. unfold collect_digit. rewrite Heq.
  destruct (_ <? 6)%Z; [reflexivity|].
  simpl lang. simpl pincode_digits.
  now destruct (map_pincode_to_city _) as [[city state]|e].
Qed.

(** X12. Events of different calls do not interfere: handling them
    in either order leaves the same store, an event leaves the session
    of another call as it was, and the response to a digit event is
    the same whether or not an event of another call was handled
    before it. *)
Theorem calls_do_not_interfere (ev1 ev2 : event)
    (sessions : gmap (option string) session) :
  event_call ev1 <> event_call ev2 ->
  handle ev1 (handle ev2 sessions) = handle ev2 (handle ev1 sessions)
  /\ handle ev2 sessions !! event_call ev1 = sessions !! event_call ev1
  /\ (forall w req, ev1 = DigitCollected w req ->
        snd (collect_digit w req (handle ev2 sessions))
        = snd (collect_digit w req sessions)).
Proof.
  intros Hne.
  assert (H12 : handle ev2 sessions !! event_call ev1 = sessions !! event_call ev1)
    by now apply handle_frame.
  assert (H21 : handle ev1 sessions !! event_call ev2 = sessions !! event_call ev2)
    by (apply handle_frame; congruence).
  split; [|split; [exact H12|]].
  - destruct (handle_local ev1 (handle ev2 sessions) sessions H12)
      as [(s1 & -> & E1)|[-> E1]];
      destruct (handle_local ev2 (handle ev1 sessions) sessions H21)
        as [(s2 & -> & E2)|[-> E2]]; rewrite E1, E2.
    + now apply insert_insert_ne.
    + symmetry. now apply delete_insert_ne.
    + apply delete_insert_ne. congruence.
    + apply delete_delete.
  - intros w req ->. now apply collect_digit_response_local.
Qed.

Lemma calls_do_not_interfere_witness :
  handle (DigitCollected offline (keypress "CA1" "4"))
    (handle (LanguageSelected (keypress "CA2" "3")) ∅) !! Some "CA2"
  = Some {| lang := "gu"; pincode_digits := []; step := 1 |}.
Proof.
  destruct (calls_do_not_interfere (LanguageSelected (keypress "CA2" "3"))
              (DigitCollected offline (keypress "CA1" "4"))
              (handle (LanguageSelected (keypress "CA2" "3")) ∅)) as (_ & H & _).
  - discriminate.
  - simpl event_call in H. rewrite H. reflexivity.
Defined.

(** ** The language of a call *)

Lemma select_lang_selectable digits : selectable (select_lang digits).
Proof.
  unfold select_lang, selectable.
  destruct (String.eqb digits "1"); [now left|].
  destruct (String.eqb digits "2"); [now right; left|].
  destruct (String.eqb digits "3"); [now right; right|now left].
Qed.

Lemma handle_selectable (ev : event) (sessions : gmap (option string) session) :
  map_Forall (fun _ s => selectable (lang s)) sessions ->
  map_Forall (fun _ s => selectable (lang s)) (handle ev sessions).
Proof.
  intros Hinv. destruct ev as [req|w req].
  - simpl. apply map_Forall_insert_2; [apply select_lang_selectable|exact Hinv].
  - simpl.
    assert (Hl : selectable (lang (default default_session (sessions !! CallSid req)))).
    { destruct (sessions !! CallSid req) as [s|] eqn:Hs; simpl.
      - exact (Hinv _ _ Hs).
      - now left. }
    destruct (collect_digit_stored w req sessions)
      as [(_ & -> & _)|[(_ & -> & _)|(_ & -> & _)]].
    + now apply map_Forall_insert_2.
    + now apply map_Forall_insert_2.
    + now apply map_Forall_delete.
Qed.

(** X13. The language of a stored session is one of "en", "hi" and
    "gu" in every reachable store, and a digit event that leaves the
    call's session in the store leaves its language as it was. *)
Theorem language_is_one_of_three :
  (forall (sessions : gmap (option string) session) (cid : option string) (s : session),
      reachable sessions -> sessions !! cid = Some s ->
      lang s = "en" \/ lang s = "hi" \/ lang s = "gu")
  /\ (forall (w : world) (req : request) (sessions : gmap (option string) session)
             (s s' : session),
        sessions !! CallSid req = Some s ->
        fst (collect_digit w req sessions) !! CallSid req = Some s' ->
        lang s' = lang s).
Proof.
  split.
  - intros sessions cid s Hr. revert cid s.
    change (map_Forall (fun _ s => selectable (lang s)) sessions).
    induction Hr as [|ev sessions _ IH]; [apply map_Forall_empty|].
    now apply handle_selectable.
  - intros w req sessions s s' Hs.
    pose proof (collect_digit_stored w req sessions) as H.
    cbv zeta in H. rewrite Hs in H. simpl in H.
    destruct H as [(_ & -> & _)|[(_ & -> & _)|(_ & -> & _)]].
    + rewrite lookup_insert_eq. now intros [= <-].
    + rewrite lookup_insert_eq. now intros [= <-].
    + rewrite lookup_delete_eq. discriminate.
Qed.

Lemma language_is_one_of_three_witness :
  lang {| lang := "hi"; pincode_digits := ["4"]; step := 2 |} = "hi".
Proof.
  destruct language_is_one_of_three as [_ Hkeep].
  apply (Hkeep offline (keypress "CA1" "4")
           (handle (LanguageSelected (keypress "CA1" "2")) ∅)
           {| lang := "hi"; pincode_digits := []; step := 1 |}
           {| lang := "hi"; pincode_digits := ["4"]; step := 2 |}); reflexivity.
Defined.

(** ** What is played *)

Lemma synthesize_true (w : world) (lang text : string) (out_path : path) :
  synthesize w lang text out_path = true ->
  ((lang = "en" \/ lang = "hi")
   /\ boto3_client w = true /\ write_audio w out_path = true
   /\ (synthesize_speech w true text "Aditi" = PollyResponse true
       \/ (synthesize_speech w true text "Aditi" = PollyRaises
           /\ synthesize_speech w false text "Aditi" = PollyResponse true)))
  \/ (lang = "gu" /\ gtts_save w text "gu" out_path = true).
Proof.
  unfold synthesize, synthesize_aws_polly, synthesize_gtts.
  destruct (String.eqb_spec lang "en") as [->|Hen];
    [|destruct (String.eqb_spec lang "hi") as [->|Hhi]]; simpl orb; cbv iota.
  1,2: intros H; left; split; [auto|];
       destruct (boto3_client w); simpl in H; [|discriminate];
       destruct (synthesize_speech w true text "Aditi") as [|[]] eqn:Hn;
       [destruct (synthesize_speech w false text "Aditi") as [|[]] eqn:Hs;
        try discriminate| |discriminate];
       (destruct (write_audio w out_path); [|discriminate]); auto.
  destruct (String.eqb_spec lang "gu") as [->|Hgu]; [|discriminate].
  intros H. right. now split.
Qed.

(** X14. A response of [collect_digit] that holds a play directive
    is that directive followed by hangup; the URL is
    scheme://host/audio/ followed by the file name built from the
    call id, the time and the language, and the audio file of that
    name was written: by the first backend for "en" and "hi" (client
    built, file written), by the second for "gu". *)
Theorem play_names_a_written_file (w : world) (req : request)
    (sessions : gmap (option string) session) (resp : response) (url : string) :
  let s := default default_session (sessions !! CallSid req) in
  let filename := audio_filename w (CallSid req) (lang s) in
  let out_path := {| parent := AUDIO_DIR; name := filename |} in
  snd (collect_digit w req sessions) = Ok resp ->
  In (Play url) resp ->
  url = audio_url req filename
  /\ resp = [Play url; Hangup]
  /\ (((lang s = "en" \/ lang s = "hi")
       /\ boto3_client w = true /\ write_audio w out_path = true)
      \/ (lang s = "gu" /\ exists text, gtts_save w text "gu" out_path = true)).
Proof.
  intros s filename out_path. unfold collect_digit. fold s.
  destruct (_ <? 6)%Z.
  { simpl. intros [= <-] [H|[]]. discriminate. }
  cbv zeta. simpl lang. simpl pincode_digits.
  destruct (map_pincode_to_city _) as [[city state]|e]; [|discriminate].
  fold filename. fold out_path.
  destruct (synthesize w (lang s) _ out_path) eqn:Hok; simpl.
  - intros [= <-] [[= <-]|[H|[]]]; [|discriminate].
    split; [reflexivity|]. split; [reflexivity|].
    apply synthesize_true in Hok.
    destruct Hok as [(Hl & Hc & Hw & _)|[Hl Hg]]; [left; auto|right].
    split; [exact Hl|]. eexists. exact Hg.
  - intros [= <-] [H|[H|[]]]; discriminate.
Qed.

Lemma play_names_a_written_file_witness :
  "https://ivr.example/audio/CA1_1700000000_en.mp3"
  = audio_url (keypress "CA1" "1") (audio_filename on_air (Some "CA1") "en").
Proof.
  destruct (play_names_a_written_file on_air (keypress "CA1" "1") (run mumbai_call)
              [Play "https://ivr.example/audio/CA1_1700000000_en.mp3"; Hangup]
              "https://ivr.example/audio/CA1_1700000000_en.mp3") as (H & _).
  - vm_compute. reflexivity.
  - left. reflexivity.
  - exact H.
Defined.

(** ** A call from language selection to the last digit *)

Lemma run_from_cons (sessions : gmap (option string) session) ev events :
  run_from sessions (ev :: events) = run_from (handle ev sessions) events.
Proof. reflexivity. Qed.




Lemma handle_language_over (req : request) (ev : event)
    (sessions : gmap (option string) session) :
  event_call ev = CallSid req ->
  handle (LanguageSelected req) (handle ev sessions)
  = handle (LanguageSelected req) sessions.
Proof.
  intros Hcall. simpl. rewrite <- Hcall.
  destruct (handle_local ev sessions sessions eq_refl) as [(s' & -> & _)|[-> _]].
  - apply insert_insert_eq.
  - apply insert_delete_eq.
Qed.

(** X16. Language selection starts a call over: after any events of
    the same call (digits, earlier selections, a completed or an
    aborted final transition) it leaves the store it would have left
    without them. *)
Theorem language_selection_starts_over (req : request) (events : list event)
    (sessions : gmap (option string) session) :
  Forall (fun ev => event_call ev = CallSid req) events ->
  handle (LanguageSelected req) (run_from sessions events)
  = handle (LanguageSelected req) sessions.
Proof.
  revert sessions. induction events as [|ev events IH]; intros sessions Hall.
  - reflexivity.
  - apply Forall_cons in Hall. destruct Hall as [Hev Hall].
    rewrite run_from_cons, (IH _ Hall). now apply handle_language_over.
Qed.

Lemma language_selection_starts_over_witness :
  handle (LanguageSelected (keypress "CA1" "3")) (run_from ∅ mumbai_call)
  = handle (LanguageSelected (keypress "CA1" "3")) ∅.
Proof.
  apply (language_selection_starts_over (keypress "CA1" "3") mumbai_call ∅).
  unfold mumbai_call. simpl. do 6 (constructor; [reflexivity|]). constructor.
Defined.

(** ** Calls made of key presses *)








(** ** Prompts and the end of a call *)

(** X18. On a reachable store the prompts count the digits: a digit
    event for a call holding k digits, k below five, answers with the
    prompt for digit number k+2; for a call holding five digits or
    more it runs the final branch, whose response is one directive
    followed by hangup, and which can raise only [ValueError]. *)
Theorem prompts_count_the_digits (w : world) (req : request)
    (sessions : gmap (option string) session) (s : session) :
  reachable sessions ->
  sessions !! CallSid req = Some s ->
  ((length (pincode_digits s) < 5)%nat ->
   snd (collect_digit w req sessions)
   = Ok [ Gather "/collect_digit" 1 "POST" (Some 5)
            [ {| text := "Please enter digit number "
                           ++ Str.str (Z.of_nat (length (pincode_digits s)) + 2)
                           ++ " of your pincode.";
                 language := None |} ] ])
  /\ ((5 <= length (pincode_digits s))%nat ->
      match snd (collect_digit w req sessions) with
      | Ok resp => exists terminal, resp = [terminal; Hangup]
      | Raise e => e = ValueError
      end).
Proof.
  intros Hr Hs.
  pose proof (reachable_counts_digits _ Hr _ _ Hs) as Hcount.
  unfold counts_digits in Hcount.
  unfold collect_digit. rewrite Hs. simpl. split; intros Hlen.
  - destruct (Z.ltb_spec (step s) 6) as [_|Hge]; [|lia].
    simpl.
    replace (step s + 1) with (Z.of_nat (length (pincode_digits s)) + 2) by lia.
    reflexivity.
  - destruct (Z.ltb_spec (step s) 6) as [Hlt|_]; [lia|].
    destruct (map_pincode_to_city _) as [[city state]|e] eqn:Hres; simpl.
    + eexists. reflexivity.
    + apply resolver_raises_value_error in Hres. exact Hres.
Qed.

Lemma prompts_count_the_digits_witness :
  snd (collect_digit offline (keypress "CA1" "0")
         (handle (DigitCollected offline (keypress "CA1" "4"))
            (handle (LanguageSelected (keypress "CA1" "2")) ∅)))
  = Ok [ Gather "/collect_digit" 1 "POST" (Some 5)
           [ {| text := "Please enter digit number " ++ Str.str (Z.of_nat 1 + 2)
                          ++ " of your pincode.";
                language := None |} ] ].
Proof.
  destruct (prompts_count_the_digits offline (keypress "CA1" "0")
              (handle (DigitCollected offline (keypress "CA1" "4"))
                 (handle (LanguageSelected (keypress "CA1" "2")) ∅))
              {| lang := "hi"; pincode_digits := ["4"]; step := 2 |}) as [H _].
  - do 2 apply reachable_step. apply reachable_start.
  - reflexivity.
  - apply H. simpl. lia.
Defined.

(** X19. After a response that holds hangup the call's session is
    gone, and a further digit event of that call is handled as for an
    unknown call: it stores an English session holding that one digit
    with step 2, whatever the language of the call was, and asks for
    digit number 2. *)
Theorem digit_after_the_end_starts_over (w : world) (req : request)
    (sessions : gmap (option string) session) (resp : response)
    (w' : world) (req' : request) :
  snd (collect_digit w req sessions) = Ok resp ->
  In Hangup resp ->
  CallSid req' = CallSid req ->
  fst (collect_digit w req sessions) !! CallSid req = None
  /\ collect_digit w' req' (fst (collect_digit w req sessions))
     = (<[CallSid req := {| lang := "en"; pincode_digits := [Digits req']; step := 2 |}]>
          (fst (collect_digit w req sessions)),
        Ok [ Gather "/collect_digit" 1 "POST" (Some 5)
               [ {| text := "Please enter digit number 2 of your pincode.";
                    language := None |} ] ]).
Proof.
  intros Hresp Hhang Hcall.
  assert (Hgone : fst (collect_digit w req sessions) !! CallSid req = None).
  { revert Hresp Hhang. unfold collect_digit.
    destruct (_ <? 6)%Z.
    - simpl. intros [= <-] [H|[]]. discriminate H.
    - cbv zeta. simpl lang. simpl pincode_digits.
      destruct (map_pincode_to_city _) as [[city state]|e]; [|discriminate].
      simpl. intros _ _. apply lookup_delete_eq. }
  split; [exact Hgone|].
  unfold collect_digit at 1. rewrite Hcall, Hgone. reflexivity.
Qed.

Lemma digit_after_the_end_starts_over_witness :
  snd (collect_digit offline (keypress "CA1" "7")
         (fst (collect_digit offline (keypress "CA1" "1")
                 {[ Some "CA1" := {| lang := "hi";
                                     pincode_digits := ["4"; "0"; "0"; "0"; "0"];
                                     step := 6 |} ]})))
  = Ok [ Gather "/collect_digit" 1 "POST" (Some 5)
           [ {| text := "Please enter digit number 2 of your pincode.";
                language := None |} ] ].
Proof.
  destruct (digit_after_the_end_starts_over offline (keypress "CA1" "1")
              {[ Some "CA1" := {| lang := "hi";
                                  pincode_digits := ["4"; "0"; "0"; "0"; "0"];
                                  step := 6 |} ]}
              [ Say {| text := compose offline "hi" "Mumbai" "Maharashtra";
                       language := Some "en-IN" |}; Hangup ]
              offline (keypress "CA1" "7")) as [_ H].
  - vm_compute. reflexivity.
  - right. left. reflexivity.
  - reflexivity.
  - rewrite H. reflexivity.
Defined.
